(** * WTForms field core: binding, processing and validation of fields

    A shallow embedding of [src/wtforms/fields/core.py]: the base [Field]
    processing and validation protocol, the scalar field classes, the select
    field, the date and time fields, and the two composite fields
    [FormField] and [FieldList].

    Python objects are embedded as follows.
    - Values that flow through a field ([data], [default], error messages) are
      terms of [Py.value].
    - A method that mutates [self] and may raise is a computation in the
      monad [Py.M S A := S -> S * Py.res A]: the state reached when the
      exception leaves the method is kept, as in Python.
    - Objects addressed by attribute ([getattr]/[setattr]) live in a heap
      [gmap loc (gmap string value)], so that aliasing is visible.
    - Strings are ASCII strings; a submission is a finite map from keys to
      the list of values recorded under the key. *)

From Stdlib Require Import ZArith String Ascii Lia.
From stdpp Require Import base option list gmap strings sorting pretty.

#[local] Open Scope string_scope.
#[local] Open Scope Z_scope.
#[local] Open Scope list_scope.

(** ** Python values, exceptions and the state-and-exception monad *)

Module Py.

Definition loc := positive.

(** The exception classes that [core.py] raises or catches. [ValidationError]
    and [StopValidation] come from [wtforms.validators], [InvalidOperation]
    from [decimal]. *)
Inductive exn_class :=
| TypeError
| ValueError
| ValidationError
| StopValidation
| AssertionError
| IndexError
| AttributeError
| InvalidOperation
| OtherError (cls : string).

#[warnings="-register-all"]
Inductive value :=
| VNone
| VUnset                                  (* wtforms.utils.unset_value *)
| VBool (b : bool)
| VInt (z : Z)
| VFloat (bits : Z)                       (* IEEE-754 binary64 pattern *)
| VDecimal (coeff : Z) (exponent : Z)     (* coeff * 10^exponent *)
| VStr (s : string)
| VList (items : list value)
| VTuple (items : list value)
| VDict (items : list (string * value))
| VRef (l : loc)                          (* an attribute-addressable object *)
| VFun (fname : string) (returns : value) (* callable: f() returns a value *)
| VFunRaising (fname : string) (cls : exn_class) (args : list value).
                                          (* callable: f() raises cls with args *)

Record exn := Exn { exn_cls : exn_class; exn_args : list value }.

Inductive res (A : Type) :=
| Ok (a : A)
| Raise (e : exn).
Arguments Ok {A} a.
Arguments Raise {A} e.

#[global] Instance exn_class_eq_dec : EqDecision exn_class.
Proof. solve_decision. Defined.

(** [isinstance(e, cls)] for the classes above: [ValidationError] derives
    from [ValueError]; the other classes are unrelated to each other. *)
Definition exn_isa (e : exn) (cls : exn_class) : bool :=
  match exn_cls e, cls with
  | ValidationError, ValueError => true
  | c, c' => bool_decide (c = c')
  end.

(** [e.args[0]]; an empty [args] raises [IndexError] in the handler. *)
Definition args0 (e : exn) : res value :=
  match exn_args e with
  | v :: _ => Ok v
  | [] => Raise (Exn IndexError [VStr "tuple index out of range"])
  end.

(** Truth value testing, [bool(v)]. *)
Definition truthy (v : value) : bool :=
  match v with
  | VNone | VUnset => false
  | VBool b => b
  | VInt z => negb (z =? 0)
  | VFloat bits => negb ((bits =? 0) || (bits =? 2 ^ 63))
  | VDecimal c _ => negb (c =? 0)
  | VStr s => negb (String.eqb s EmptyString)
  | VList l | VTuple l => match l with [] => false | _ => true end
  | VDict l => match l with [] => false | _ => true end
  | VRef _ | VFun _ _ | VFunRaising _ _ _ => true
  end.

(** [v()] with no argument. Calling something that is not callable raises
    [TypeError]. *)
Definition call0 (v : value) : res value :=
  match v with
  | VFun _ r => Ok r
  | VFunRaising _ c a => Raise (Exn c a)
  | _ => Raise (Exn TypeError [VStr "object is not callable"])
  end.

(** [iter(v)] run to exhaustion. *)
Definition iterate (v : value) : res (list value) :=
  match v with
  | VList l | VTuple l => Ok l
  | VDict kvs => Ok (map (λ kv, VStr (fst kv)) kvs)
  | VStr s => Ok (map (λ c, VStr (String c EmptyString)) (list_ascii_of_string s))
  | _ => Raise (Exn TypeError [VStr "object is not iterable"])
  end.

(** The monad of methods: state [S] is threaded and survives a raise. *)
Definition M (S A : Type) : Type := S → S * res A.

Definition ret {S A} (a : A) : M S A := λ s, (s, Ok a).

Definition bind {S A B} (m : M S A) (k : A → M S B) : M S B :=
  λ s, match m s with
       | (s', Ok a) => k a s'
       | (s', Raise e) => (s', Raise e)
       end.

Definition raise {S A} (e : exn) : M S A := λ s, (s, Raise e).

Definition lift {S A} (r : res A) : M S A := λ s, (s, r).

Definition get {S} : M S S := λ s, (s, Ok s).

Definition modify {S} (f : S → S) : M S unit := λ s, (f s, Ok tt).

(** [try: m  except cls1 as e: h1 e  except cls2 as e: h2 e ...]: the first
    clause whose class matches handles the exception; what a handler raises
    is not offered to the other clauses. *)
Fixpoint select_handler {S A} (e : exn)
    (clauses : list (list exn_class * (exn → M S A))) : option (M S A) :=
  match clauses with
  | [] => None
  | (classes, h) :: rest =>
      if existsb (exn_isa e) classes then Some (h e)
      else select_handler e rest
  end.

Definition try_except {S A} (m : M S A)
    (clauses : list (list exn_class * (exn → M S A))) : M S A :=
  λ s, match m s with
       | (s', Raise e) =>
           match select_handler e clauses with
           | Some h => h s'
           | None => (s', Raise e)
           end
       | r => r
       end.

End Py.

Declare Scope py_scope.
Delimit Scope py_scope with py.
Notation "x <- y ;; z" := (Py.bind y (λ x, z))
  (at level 20, y at level 99, z at level 200, only parsing) : py_scope.
Notation "y ;;; z" := (Py.bind y (λ _, z))
  (at level 100, z at level 200, only parsing, right associativity) : py_scope.
#[local] Open Scope py_scope.

Import Py.

(** ** The collaborators of the field core *)

(** The heap of attribute-addressable objects: [obj.attr] is
    [h !! obj ≫= (.!! attr)]. An object that was never written has no
    attribute. *)
Abbreviation heap := (gmap loc (gmap string value)).

(** A submission ("formdata"): [k in formdata] is [is_Some (fd !! k)],
    [formdata.getlist(k)] the list stored under [k], iteration yields the
    keys. *)
Abbreviation formdata := (gmap string (list string)).

(** Builtins and library functions that [core.py] calls and that are defined
    outside the repository. *)
Class Builtins := {
  py_int : value → res value;               (* int(v) *)
  py_float : string → res value;            (* float(s) *)
  py_Decimal : string → res value;          (* decimal.Decimal(s) *)
  babel_parse_decimal : string → res value; (* babel.numbers.parse_decimal *)
}.

(** A filter takes [data] and returns the new [data], or raises. *)
Definition filter_fn := value → res value.

(** A validator is called as [validator(form, field)]: it may read and
    change the field's runtime state [S] and the heap, and it may raise. *)
Definition validator (S : Type) := value → M (heap * S) unit.

(** What can be found in a sequence of validators: an instance, a class
    (calling it runs its constructor), or something that is not callable. *)
Inductive validator_obj (S : Type) :=
| AnInstance (run : validator S)
| AClass (construct : validator S)
| NotCallable (v : value).
Arguments AnInstance {S} run.
Arguments AClass {S} construct.
Arguments NotCallable {S} v.

Definition call_validator {S} (v : validator_obj S) : validator S :=
  match v with
  | AnInstance run => run
  | AClass construct => construct
  | NotCallable _ =>
      λ _, raise (Exn TypeError [VStr "object is not callable"])
  end.

(** The part of a field's state that the validation chain touches. *)
Class HasErrors (S : Type) := {
  get_errors : S → list value;
  set_errors : list value → S → S;
}.

(** [self.errors.append(m)] *)
Definition append_error {S} `{HasErrors S} (m : value) : M (heap * S) unit :=
  modify (λ hs, (hs.1, set_errors (get_errors hs.2 ++ [m]) hs.2)).

(** [getattr(obj, name, None)] *)
Definition getattr_or_none (h : heap) (obj : value) (attr : string) : value :=
  match obj with
  | VRef l => from_option (λ v, v) VNone (h !! l ≫= (.!! attr))
  | _ => VNone
  end.

(** [setattr(obj, name, v)] *)
Definition setattr (obj : value) (attr : string) (v : value) : M heap unit :=
  match obj with
  | VRef l =>
      modify (λ h : heap, <[l := <[attr := v]> (from_option (λ o, o) ∅ (h !! l))]> h)
  | _ => raise (Exn AttributeError [VStr ("object has no attribute " +:+ attr)])
  end.

(** ** [class Field] *)

Module Field.

(** The attributes that [process] and [validate] assign. A field that was
    bound but not processed has [raw_data = None] and empty [errors] and
    [process_errors] (the class attributes). *)
Record state := State {
  data : value;
  raw_data : option (list string);
  errors : list value;
  process_errors : list value;
  object_data : value;
}.

#[global] Instance state_has_errors : HasErrors state := {
  get_errors := errors;
  set_errors es s :=
    State (data s) (raw_data s) es (process_errors s) (object_data s);
}.

Definition set_data (v : value) (s : state) : state :=
  State v (raw_data s) (errors s) (process_errors s) (object_data s).
Definition set_raw_data (r : list string) (s : state) : state :=
  State (data s) (Some r) (errors s) (process_errors s) (object_data s).
Definition set_process_errors (es : list value) (s : state) : state :=
  State (data s) (raw_data s) (errors s) es (object_data s).
Definition set_object_data (v : value) (s : state) : state :=
  State (data s) (raw_data s) (errors s) (process_errors s) v.

(** What [__init__] fixes. [false_values] is read by [BooleanField] only and
    [use_locale] by [DecimalField] only. [gettext] is the translations
    object's [gettext]. *)
Record config := Config {
  name : string;
  short_name : string;
  id : string;
  default : value;
  validators : list (validator_obj state);
  filters : list filter_fn;
  gettext : string → string;
  false_values : list value;
  use_locale : bool;
}.

(** The methods a subclass of [Field] overrides. *)
Record class := MkClass {
  process_data : config → value → M state unit;
  process_formdata : config → list string → M state unit;
  pre_validate : config → value → M (heap * state) unit;
  post_validate : config → value → bool → M (heap * state) unit;
}.

(** A bound field. *)
Record t := Make { cls : class; cfg : config; st : state }.

(** [Field.check_validators] *)
Fixpoint check_validators {S} (validators : list (validator_obj S)) : res unit :=
  match validators with
  | [] => Ok tt
  | AnInstance _ :: rest => check_validators rest
  | NotCallable _ :: _ =>
      Raise (Exn TypeError
        [VStr "is not a valid validator because it is not callable"])
  | AClass _ :: _ =>
      Raise (Exn TypeError
        [VStr "is not a valid validator because it is a class, it should be an instance"])
  end.

(** [if e.args and e.args[0]: self.errors.append(e.args[0])] *)
Definition append_message_if_any {S} `{HasErrors S} (e : exn)
  : M (heap * S) unit :=
  match exn_args e with
  | m :: _ => if truthy m then append_error m else ret tt
  | [] => ret tt
  end.

(** [self.errors.append(e.args[0])] *)
Definition append_message {S} `{HasErrors S} (e : exn) : M (heap * S) unit :=
  m <- lift (args0 e) ;; append_error m.

(** [Field._run_validation_chain]: the result tells whether validation was
    stopped. The body of the [for] loop yields [true] where the source has
    [return True], and [false] to go on with the next validator. *)
Fixpoint _run_validation_chain {S} `{HasErrors S} (form : value)
    (validators : list (validator_obj S)) : M (heap * S) bool :=
  match validators with
  | [] => ret false
  | validator :: rest =>
      returned <-
        try_except (call_validator validator form ;;; ret false)
          [ ([StopValidation],
              λ e, append_message_if_any e ;;; ret true);
            ([ValidationError],
              λ e, append_message e ;;; ret false) ] ;;
      if returned : bool then ret true
      else _run_validation_chain form rest
  end.

(** [Field.validate], for a class with the hooks [pre] and [post]. *)
Definition validate_with {S} `{HasErrors S}
    (seed : S → list value)
    (pre : value → M (heap * S) unit)
    (post : value → bool → M (heap * S) unit)
    (validators : list (validator_obj S))
    (form : value) (extra_validators : list (validator_obj S))
  : M (heap * S) bool :=
  modify (λ hs, (hs.1, set_errors (seed hs.2) hs.2)) ;;;
  lift (check_validators extra_validators) ;;;
  stop_validation <-
    try_except (pre form ;;; ret false)
      [ ([StopValidation], λ e, append_message_if_any e ;;; ret true);
        ([ValidationError], λ e, append_message e ;;; ret false) ] ;;
  stop_validation <-
    (if negb stop_validation
     then _run_validation_chain form (validators ++ extra_validators)
     else ret stop_validation) ;;
  try_except (post form stop_validation)
    [ ([ValidationError], λ e, append_message e) ] ;;;
  s <- get ;;
  ret (bool_decide (length (get_errors s.2) = 0%nat)).

Definition validate (c : class) (cf : config) (form : value)
    (extra_validators : list (validator_obj state)) : M (heap * state) bool :=
  validate_with process_errors (pre_validate c cf) (post_validate c cf)
    (validators cf) form extra_validators.

(** [self.process_errors.append(e.args[0])] *)
Definition record_process_error (e : exn) : M state unit :=
  m <- lift (args0 e) ;;
  modify (λ s, set_process_errors (process_errors s ++ [m]) s).

(** [for filter in chain: self.data = filter(self.data)] *)
Fixpoint run_filters (fs : list filter_fn) : M state unit :=
  match fs with
  | [] => ret tt
  | f :: rest =>
      s <- get ;;
      v <- lift (f (data s)) ;;
      modify (set_data v) ;;;
      run_filters rest
  end.

(** [data = self.default()], falling back on [self.default] itself when the
    call raises [TypeError]. *)
Definition resolve_default {S} (dflt : value) : M S value :=
  try_except (lift (call0 dflt)) [ ([TypeError], λ _, ret dflt) ].

(** The three parts of [Field.process] after [data] is resolved. *)
Definition process_object_data (c : class) (cf : config) (d : value)
  : M state unit :=
  modify (set_object_data d) ;;;
  try_except (process_data c cf d) [ ([ValueError], record_process_error) ].

Definition process_submission (c : class) (cf : config) (fd : option formdata)
  : M state unit :=
  match fd with
  | Some fd =>
      modify (set_raw_data
        (match fd !! name cf with Some vs => vs | None => [] end)) ;;;
      s <- get ;;
      try_except
        (process_formdata c cf (from_option (λ r, r) [] (raw_data s)))
        [ ([ValueError], record_process_error) ]
  | None => ret tt
  end.

Definition process_filters (cf : config) (extra_filters : list filter_fn)
  : M state unit :=
  try_except (run_filters (filters cf ++ extra_filters))
    [ ([ValueError], record_process_error) ].

(** [Field.process]; [extra_filters=None] is the empty list. *)
Definition process (c : class) (cf : config) (fd : option formdata)
    (d : value) (extra_filters : list filter_fn) : M state unit :=
  modify (set_process_errors []) ;;;
  d <- match d with
       | VUnset => resolve_default (default cf)
       | _ => ret d
       end ;;
  process_object_data c cf d ;;;
  process_submission c cf fd ;;;
  process_filters cf extra_filters.

(** [Field.populate_obj] *)
Definition populate_obj (s : state) (obj : value) (attr : string)
  : M heap unit :=
  setattr obj attr (data s).

(** The methods of [Field] itself. *)
Definition base_process_data (cf : config) (v : value) : M state unit :=
  modify (set_data v).

Definition base_process_formdata (cf : config) (valuelist : list string)
  : M state unit :=
  match valuelist with
  | v :: _ => modify (set_data (VStr v))
  | [] => ret tt
  end.

Definition base_pre_validate {S} (cf : config) (form : value)
  : M (heap * S) unit := ret tt.

Definition base_post_validate {S} (cf : config) (form : value)
    (validation_stopped : bool) : M (heap * S) unit := ret tt.

Definition Field : class :=
  MkClass base_process_data base_process_formdata
    base_pre_validate base_post_validate.

End Field.

(** ** The scalar field classes

    Each class is [Field] with the methods it overrides; none of them
    overrides [validate], [process], [pre_validate] or [post_validate].
    [SearchField], [TelField], [URLField] and [EmailField] are [StringField],
    [IntegerRangeField] is [IntegerField] and [DecimalRangeField] is
    [DecimalField], each with another widget. *)

Module StringField.

Definition process_formdata (cf : Field.config) (valuelist : list string)
  : M Field.state unit :=
  match valuelist with
  | v :: _ => modify (Field.set_data (VStr v))
  | [] => ret tt
  end.

Definition StringField : Field.class :=
  Field.MkClass Field.base_process_data process_formdata
    Field.base_pre_validate Field.base_post_validate.

End StringField.

Module IntegerField.

Definition message : string := "Not a valid integer value.".

(** [self.data = None; raise ValueError(self.gettext(message))] *)
Definition reject (cf : Field.config) (msg : string) : M Field.state unit :=
  modify (Field.set_data VNone) ;;;
  raise (Exn ValueError [VStr (Field.gettext cf msg)]).

Definition process_data `{Builtins} (cf : Field.config) (v : value)
  : M Field.state unit :=
  match v with
  | VNone | VUnset => modify (Field.set_data VNone)
  | _ =>
      try_except (n <- lift (py_int v) ;; modify (Field.set_data n))
        [ ([ValueError; TypeError], λ _, reject cf message) ]
  end.

Definition process_formdata `{Builtins} (cf : Field.config)
    (valuelist : list string) : M Field.state unit :=
  match valuelist with
  | [] => ret tt
  | v :: _ =>
      try_except (n <- lift (py_int (VStr v)) ;; modify (Field.set_data n))
        [ ([ValueError], λ _, reject cf message) ]
  end.

Definition IntegerField `{Builtins} : Field.class :=
  Field.MkClass process_data process_formdata
    Field.base_pre_validate Field.base_post_validate.

End IntegerField.

Module DecimalField.

Definition message : string := "Not a valid decimal value.".

Definition process_formdata `{Builtins} (cf : Field.config)
    (valuelist : list string) : M Field.state unit :=
  match valuelist with
  | [] => ret tt
  | v :: _ =>
      try_except
        (n <- lift (if Field.use_locale cf then babel_parse_decimal v
                    else py_Decimal v) ;;
         modify (Field.set_data n))
        [ ([InvalidOperation; ValueError],
            λ _, IntegerField.reject cf message) ]
  end.

Definition DecimalField `{Builtins} : Field.class :=
  Field.MkClass Field.base_process_data process_formdata
    Field.base_pre_validate Field.base_post_validate.

End DecimalField.

Module FloatField.

Definition message : string := "Not a valid float value.".

Definition process_formdata `{Builtins} (cf : Field.config)
    (valuelist : list string) : M Field.state unit :=
  match valuelist with
  | [] => ret tt
  | v :: _ =>
      try_except (n <- lift (py_float v) ;; modify (Field.set_data n))
        [ ([ValueError], λ _, IntegerField.reject cf message) ]
  end.

Definition FloatField `{Builtins} : Field.class :=
  Field.MkClass Field.base_process_data process_formdata
    Field.base_pre_validate Field.base_post_validate.

End FloatField.

Module BooleanField.

(** The class attribute [false_values = (False, "false", and the empty string)]. *)
Definition false_values : list value := [VBool false; VStr "false"; VStr EmptyString].

(** [s == v] for a string [s]: only an equal string is equal to it. *)
Definition str_eq (s : string) (v : value) : bool :=
  match v with
  | VStr s' => String.eqb s s'
  | _ => false
  end.

(** [s in values] *)
Definition str_in (s : string) (values : list value) : bool :=
  existsb (str_eq s) values.

Definition process_data (cf : Field.config) (v : value) : M Field.state unit :=
  modify (Field.set_data (VBool (truthy v))).

Definition process_formdata (cf : Field.config) (valuelist : list string)
  : M Field.state unit :=
  match valuelist with
  | [] => modify (Field.set_data (VBool false))
  | v :: _ =>
      if str_in v (Field.false_values cf)
      then modify (Field.set_data (VBool false))
      else modify (Field.set_data (VBool true))
  end.

Definition BooleanField : Field.class :=
  Field.MkClass process_data process_formdata
    Field.base_pre_validate Field.base_post_validate.

End BooleanField.

(** The scalar classes of [core.py] embedded here. *)
Inductive scalar_class `{Builtins} : Field.class → Prop :=
| sc_Field : scalar_class Field.Field
| sc_StringField : scalar_class StringField.StringField
| sc_IntegerField : scalar_class IntegerField.IntegerField
| sc_DecimalField : scalar_class DecimalField.DecimalField
| sc_FloatField : scalar_class FloatField.FloatField
| sc_BooleanField : scalar_class BooleanField.BooleanField.

(** ** What a composite field uses of the fields it encloses *)

(** The methods and attributes of an enclosed field that [FieldList] calls
    and reads, whatever the class of the field. *)
Class FieldLike (F : Type) := {
  field_name : F → string;                          (* field.name *)
  field_errors : F → value;                         (* field.errors *)
  field_process : option formdata → value → M F unit;
                                                    (* field.process(formdata, data) *)
  field_validate : value → M (heap * F) bool;       (* field.validate(form) *)
}.

(** [UnboundField.bind(form=None, name=, prefix=, id=, _meta=, translations=)]:
    the constructor of the field class runs and may raise. *)
Definition UnboundField (F : Type) :=
  string → string → string → (string → string) → res F.

(** ** String operations used on submission keys *)

(** [k[n:]] *)
Fixpoint string_drop (n : nat) (s : string) : string :=
  match n, s with
  | O, _ => s
  | S n', String _ rest => string_drop n' rest
  | S _, EmptyString => EmptyString
  end.

(** [s.split("-", 1)[0]] *)
Fixpoint first_segment (s : string) : string :=
  match s with
  | EmptyString => EmptyString
  | String c rest =>
      if Ascii.eqb c "-"%char then EmptyString else String c (first_segment rest)
  end.

Definition is_digit (c : ascii) : bool :=
  let n := nat_of_ascii c in (48 <=? n)%nat && (n <=? 57)%nat.

Fixpoint all_digits (s : string) : bool :=
  match s with
  | EmptyString => true
  | String c rest => is_digit c && all_digits rest
  end.

(** [s.isdigit()] *)
Definition isdigit (s : string) : bool :=
  match s with
  | EmptyString => false
  | _ => all_digits s
  end.

(** [int(s)] for a string of digits, most significant digit first. *)
Fixpoint int_of_digits_from (acc : Z) (s : string) : Z :=
  match s with
  | EmptyString => acc
  | String c rest =>
      int_of_digits_from (10 * acc + (Z.of_nat (nat_of_ascii c) - 48)) rest
  end.

Definition int_of_digits (s : string) : Z := int_of_digits_from 0 s.

(** ** [class FieldList] *)

Module FieldList.

Section WithEntries.
Context {F : Type} `{FieldLike F}.

Record state := State {
  entries : list F;
  errors : list value;
  last_index : Z;
  object_data : value;
}.

#[global] Instance state_has_errors : HasErrors state := {
  get_errors := errors;
  set_errors es s := State (entries s) es (last_index s) (object_data s);
}.

Definition set_entries (es : list F) (s : state) : state :=
  State es (errors s) (last_index s) (object_data s).
Definition set_last_index (i : Z) (s : state) : state :=
  State (entries s) (errors s) i (object_data s).
Definition set_object_data (v : value) (s : state) : state :=
  State (entries s) (errors s) (last_index s) v.

(** What [__init__] fixes; [max_entries = None] is Python's [None]. *)
Record config := Config {
  name : string;
  short_name : string;
  id : string;
  _prefix : string;
  default : value;
  validators : list (validator_obj state);
  gettext : string → string;
  unbound_field : UnboundField F;
  min_entries : Z;
  max_entries : option Z;
}.

(** The state [__init__] leaves: [last_index = -1]; [errors] is the class
    attribute. *)
Definition init : state := State [] [] (-1) VNone.

(** [bool(self.max_entries)] *)
Definition max_entries_set (cf : config) : bool :=
  match max_entries cf with
  | Some m => negb (m =? 0)
  | None => false
  end.

(** [FieldList._extract_indices], the generator run to exhaustion. The
    keys are taken in the order of the map; the caller sorts them. *)
Definition _extract_indices (prefix : string) (fd : formdata) : list Z :=
  let offset := S (String.length prefix) in
  omap (λ k : string,
          if String.prefix prefix k
          then let k := first_segment (string_drop offset k) in
               if isdigit k then Some (int_of_digits k) else None
          else None)
       (map fst (map_to_list fd)).

(** [sorted(set(l))] *)
Definition sorted_set (l : list Z) : list Z := merge_sort Z.le (remove_dups l).

(** [l[:m]] *)
Definition slice_to {A} (m : Z) (l : list A) : list A :=
  if 0 <=? m then take (Z.to_nat m) l
  else take (Z.to_nat (Z.of_nat (length l) + m)) l.

(** [FieldList._add_entry]; [index=None] is [None]. *)
Definition _add_entry (cf : config) (fd : option formdata) (d : value)
    (index : option Z) : M state F :=
  s <- get ;;
  (if negb (max_entries_set cf)
      || bool_decide (Z.of_nat (length (entries s))
                      < from_option (λ m, m) 0 (max_entries cf))
   then ret tt
   else raise (Exn AssertionError
     [VStr "You cannot have more than max_entries entries in this FieldList"])) ;;;
  let index := match index with
               | None => last_index s + 1
               | Some i => i
               end in
  modify (set_last_index index) ;;;
  let name := short_name cf +:+ "-" +:+ pretty index in
  let id := id cf +:+ "-" +:+ pretty index in
  field <- lift (unbound_field cf name (_prefix cf) id (gettext cf)) ;;
  match field_process fd d field with
  | (field, Ok _) =>
      modify (λ s, set_entries (entries s ++ [field]) s) ;;;
      ret field
  | (_, Raise e) => raise e
  end.

(** [for index in indices: ... self._add_entry(formdata, obj_data, index=index)]
    where [idata] is what is left of [iter(data)]. *)
Fixpoint add_indexed (cf : config) (fd : option formdata) (indices : list Z)
    (idata : list value) : M state unit :=
  match indices with
  | [] => ret tt
  | index :: indices =>
      let obj_data := match idata with v :: _ => v | [] => VUnset end in
      _add_entry cf fd obj_data (Some index) ;;;
      add_indexed cf fd indices (tail idata)
  end.

(** [for obj_data in data: self._add_entry(formdata, obj_data)] *)
Fixpoint add_each (cf : config) (fd : option formdata) (items : list value)
  : M state unit :=
  match items with
  | [] => ret tt
  | obj_data :: items =>
      _add_entry cf fd obj_data None ;;;
      add_each cf fd items
  end.

(** [while len(self.entries) < self.min_entries: self._add_entry(formdata)].
    Each turn adds one entry, so [min_entries - len(entries)] turns are
    enough for the condition to become false; [pad_enough] proves it. *)
Fixpoint pad (turns : nat) (cf : config) (fd : option formdata) : M state unit :=
  s <- get ;;
  if bool_decide (Z.of_nat (length (entries s)) < min_entries cf)
  then match turns with
       | O => ret tt
       | S turns => _add_entry cf fd VUnset None ;;; pad turns cf fd
       end
  else ret tt.

(** [bool(formdata)]: a submission is true when it has a key. *)
Definition formdata_truthy (fd : option formdata) : bool :=
  match fd with
  | Some m => negb (bool_decide (m = ∅))
  | None => false
  end.

(** [FieldList.process] *)
Definition process (cf : config) (fd : option formdata) (d : value)
    (extra_filters : list filter_fn) : M state unit :=
  match extra_filters with
  | _ :: _ => raise (Exn TypeError [VStr "FieldList does not accept any filters. Instead, define them on the enclosed field."])
  | [] =>
      modify (set_entries []) ;;;
      d <- match d with
           | VUnset => Field.resolve_default (default cf)
           | _ => if truthy d then ret d
                  else Field.resolve_default (default cf)
           end ;;
      modify (set_object_data d) ;;;
      (if formdata_truthy fd then
         let indices :=
           sorted_set (_extract_indices (name cf) (from_option (λ m, m) ∅ fd)) in
         let indices :=
           if max_entries_set cf
           then slice_to (from_option (λ m, m) 0 (max_entries cf)) indices
           else indices in
         idata <- lift (iterate d) ;;
         add_indexed cf fd indices idata
       else
         items <- lift (iterate d) ;;
         add_each cf fd items) ;;;
      s <- get ;;
      pad (Z.to_nat (min_entries cf - Z.of_nat (length (entries s)))) cf fd
  end.

(** [for subfield in self.entries: subfield.validate(form);
    self.errors.append(subfield.errors)]; [i] is the position of the head of
    [todo] in [self.entries]. *)
Fixpoint validate_entries (form : value) (i : nat) (todo : list F)
  : M (heap * state) unit :=
  match todo with
  | [] => ret tt
  | subfield :: rest =>
      (λ hs : heap * state,
         let '((h, subfield), r) := field_validate form (hs.1, subfield) in
         let s := set_entries (<[i := subfield]> (entries hs.2)) hs.2 in
         match r with
         | Ok _ => ((h, set_errors (errors s ++ [field_errors subfield]) s), Ok tt)
         | Raise e => ((h, s), Raise e)
         end) ;;;
      validate_entries form (S i) rest
  end.

(** [FieldList.validate] *)
Definition validate (cf : config) (form : value)
    (extra_validators : list (validator_obj state)) : M (heap * state) bool :=
  modify (λ hs, (hs.1, set_errors [] hs.2)) ;;;
  hs <- get ;;
  validate_entries form 0 (entries hs.2) ;;;
  modify (λ hs, if existsb truthy (errors hs.2) then hs
                else (hs.1, set_errors [] hs.2)) ;;;
  Field._run_validation_chain form (validators cf ++ extra_validators) ;;;
  hs <- get ;;
  ret (bool_decide (length (errors hs.2) = 0%nat)).

(** [FieldList.append_entry] *)
Definition append_entry (cf : config) (d : value) : M state F :=
  _add_entry cf None d None.

(** [FieldList.pop_entry]: [list.pop()] raises [IndexError] on an empty
    list. *)
Definition pop_entry : M state F :=
  s <- get ;;
  match last (entries s) with
  | None => raise (Exn IndexError [VStr "pop from empty list"])
  | Some entry =>
      modify (set_entries (removelast (entries s))) ;;;
      modify (λ s, set_last_index (last_index s - 1) s) ;;;
      ret entry
  end.

End WithEntries.

Arguments state F : clear implicits.
Arguments config F : clear implicits.

End FieldList.

(** ** [class FormField] *)

(** The methods and attributes of the enclosed form that [FormField] calls.
    The form classes are defined in [wtforms/form.py]. *)
Class FormLike (Fm : Type) := {
  form_validate : M (heap * Fm) bool;               (* form.validate() *)
  form_populate_obj : Fm → value → M heap unit;     (* form.populate_obj(obj) *)
  form_errors : Fm → value;                         (* form.errors *)
}.

(** [form_class(formdata=, obj=, prefix=, **kwargs)]: the constructor reads
    the attributes of [obj] in the heap. *)
Definition FormClass (Fm : Type) :=
  option formdata → value → string → list (string * value) → heap → res Fm.

Module FormField.

Section WithForm.
Context {Fm : Type} `{FormLike Fm}.

(** [form] is absent until [process] ran; [_obj] is [None] after
    [__init__]. *)
Record state := State {
  form : option Fm;
  _obj : value;
  object_data : value;
}.

Record config := Config {
  name : string;
  separator : string;
  default : value;
  form_class : FormClass Fm;
}.

Definition init : state := State None VNone VNone.

(** [self.form]: the attribute is missing before [process], and
    [__getattr__] then looks up [self.form] again, without end. *)
Definition get_form {S} (s : state) : M S Fm :=
  match form s with
  | Some f => ret f
  | None => raise (Exn (OtherError "RecursionError") [])
  end.

(** The property [FormField.errors] *)
Definition errors {S} (s : state) : M S value :=
  f <- get_form s ;; ret (form_errors f).

(** [FormField.process]; the heap [h] is read by the inner form. *)
Definition process (cf : config) (h : heap) (fd : option formdata) (d : value)
    (extra_filters : list filter_fn) : M state unit :=
  match extra_filters with
  | _ :: _ => raise (Exn TypeError [VStr "FormField cannot take filters, as the encapsulated data is not mutable."])
  | [] =>
      d <- match d with
           | VUnset =>
               d <- Field.resolve_default (default cf) ;;
               modify (λ s, State (form s) d (object_data s)) ;;;
               ret d
           | _ => ret d
           end ;;
      modify (λ s, State (form s) (_obj s) d) ;;;
      let prefix := name cf +:+ separator cf in
      f <- lift (match d with
                 | VDict kwargs => form_class cf fd VNone prefix kwargs h
                 | _ => form_class cf fd d prefix [] h
                 end) ;;
      modify (λ s, State (Some f) (_obj s) (object_data s))
  end.

(** [FormField.validate] *)
Definition validate {V} (form_arg : value) (extra_validators : list V)
  : M (heap * state) bool :=
  match extra_validators with
  | _ :: _ => raise (Exn TypeError [VStr "FormField does not accept in-line validators, as it gets errors from the enclosed form."])
  | [] =>
      hs <- get ;;
      f <- get_form hs.2 ;;
      (λ hs : heap * state,
         let '((h, f), r) := form_validate (hs.1, f) in
         ((h, State (Some f) (_obj hs.2) (object_data hs.2)), r))
  end.

(** [FormField.populate_obj] *)
Definition populate_obj (s : state) (obj : value) (attr : string)
  : M heap unit :=
  h <- get ;;
  candidate <-
    match getattr_or_none h obj attr with
    | VNone =>
        match _obj s with
        | VNone => raise (Exn TypeError [VStr "populate_obj: cannot find a value to populate from the provided obj or input data/defaults"])
        | o => ret o
        end
    | c => ret c
    end ;;
  f <- get_form s ;;
  form_populate_obj f candidate ;;;
  setattr obj attr candidate.

End WithForm.

Arguments state Fm : clear implicits.
Arguments config Fm : clear implicits.

End FormField.

(** ** Binding a scalar field *)

Module Bound.

(** The keyword arguments an [UnboundField] keeps for [Field.__init__]. *)
Record kwargs := Kwargs {
  kw_validators : list (validator_obj Field.state);
  kw_filters : list filter_fn;
  kw_default : value;
  kw_false_values : option (list value);
  kw_use_locale : bool;
}.

(** [Field.__init__] (and [BooleanField.__init__] for [false_values]):
    [name = _prefix + name], [id = id or name]; the validators are checked.
    The attributes [errors], [process_errors] and [raw_data] are those of the
    class; [data] and [object_data] do not exist before [process] and stand
    as [None]. *)
Definition __init__ (c : Field.class) (kw : kwargs) (id : string)
    (gettext : string → string) (name _prefix : string) : res Field.t :=
  match Field.check_validators (kw_validators kw) with
  | Raise e => Raise e
  | Ok _ =>
      let full := _prefix +:+ name in
      Ok (Field.Make c
            (Field.Config full name (if String.eqb id EmptyString then full else id)
               (kw_default kw) (kw_validators kw) (kw_filters kw) gettext
               (from_option (λ l, l) BooleanField.false_values
                  (kw_false_values kw))
               (kw_use_locale kw))
            (Field.State VNone None [] [] VNone))
  end.

(** [UnboundField(field_class, **kwargs).bind] *)
Definition unbound (c : Field.class) (kw : kwargs) : UnboundField Field.t :=
  λ name prefix id gettext, __init__ c kw id gettext name prefix.

Definition no_kwargs : kwargs := Kwargs [] [] VNone None false.

(** A bound scalar field seen from a composite field. *)
#[global] Instance field_like : FieldLike Field.t := {
  field_name f := Field.name (Field.cfg f);
  field_errors f := VList (Field.errors (Field.st f));
  field_process fd d :=
    λ f, let '(s, r) :=
           Field.process (Field.cls f) (Field.cfg f) fd d [] (Field.st f) in
         (Field.Make (Field.cls f) (Field.cfg f) s, r);
  field_validate form :=
    λ hf, let '((h, s), r) :=
            Field.validate (Field.cls hf.2) (Field.cfg hf.2) form []
              (hf.1, Field.st hf.2) in
          ((h, Field.Make (Field.cls hf.2) (Field.cfg hf.2) s), r);
}.

End Bound.

(** ** The form container *)

Module Form.

(** Modelled from the spec: the schema container of section 4.6
    ([wtforms/form.py] is not part of the sources at hand), for forms whose
    fields are scalar. It binds every declared template once, in order,
    feeds each field the submission and the attribute of the object or the
    mapping entry of the field's name, validates every field without
    short-circuit, and populates an object field by field. *)
Record t := Make {
  this : value;                          (* the form object itself *)
  fields : list (string * Field.t);
}.

Definition template := list (string * UnboundField Field.t).

(** [hasattr(obj, name)] *)
Definition hasattr (h : heap) (obj : value) (attr : string) : bool :=
  match obj with
  | VRef l => bool_decide (is_Some (h !! l ≫= (.!! attr)))
  | _ => false
  end.

Fixpoint lookup_kwarg (k : string) (kwargs : list (string * value))
  : option value :=
  match kwargs with
  | [] => None
  | (k', v) :: rest => if String.eqb k k' then Some v else lookup_kwarg k rest
  end.

Fixpoint bind_fields (tpl : template) (fd : option formdata) (obj : value)
    (prefix : string) (kwargs : list (string * value)) (h : heap)
  : res (list (string * Field.t)) :=
  match tpl with
  | [] => Ok []
  | (short, ub) :: rest =>
      match ub short prefix EmptyString (λ s, s) with
      | Raise e => Raise e
      | Ok f =>
          let d := if hasattr h obj short then getattr_or_none h obj short
                   else from_option (λ v, v) VUnset (lookup_kwarg short kwargs) in
          match field_process fd d f with
          | (_, Raise e) => Raise e
          | (f, Ok _) =>
              match bind_fields rest fd obj prefix kwargs h with
              | Raise e => Raise e
              | Ok fs => Ok ((short, f) :: fs)
              end
          end
      end
  end.

Definition construct (this : value) (tpl : template) : FormClass t :=
  λ fd obj prefix kwargs h,
    match bind_fields tpl fd obj prefix kwargs h with
    | Raise e => Raise e
    | Ok fs => Ok (Make this fs)
    end.

Fixpoint validate_fields (this : value) (todo : list (string * Field.t))
  : M heap (list (string * Field.t) * bool) :=
  match todo with
  | [] => ret ([], true)
  | (short, f) :: rest =>
      (λ h : heap,
         let '((h, f), r) := field_validate this (h, f) in
         match r with
         | Raise e => (h, Raise e)
         | Ok ok =>
             match validate_fields this rest h with
             | (h, Ok (fs, success)) => (h, Ok ((short, f) :: fs, ok && success))
             | (h, Raise e) => (h, Raise e)
             end
         end)
  end.

Definition validate : M (heap * t) bool :=
  λ hf, match validate_fields (this hf.2) (fields hf.2) hf.1 with
        | (h, Ok (fs, success)) => ((h, Make (this hf.2) fs), Ok success)
        | (h, Raise e) => ((h, hf.2), Raise e)
        end.

Fixpoint populate_fields (todo : list (string * Field.t)) (obj : value)
  : M heap unit :=
  match todo with
  | [] => ret tt
  | (short, f) :: rest =>
      Field.populate_obj (Field.st f) obj short ;;;
      populate_fields rest obj
  end.

Definition populate_obj (f : t) (obj : value) : M heap unit :=
  populate_fields (fields f) obj.

Definition errors (f : t) : value :=
  VDict (omap (λ nf : string * Field.t,
                 match Field.errors (Field.st nf.2) with
                 | [] => None
                 | es => Some (nf.1, VList es)
                 end) (fields f)).

#[global] Instance form_like : FormLike t := {
  form_validate := validate;
  form_populate_obj := populate_obj;
  form_errors := errors;
}.

End Form.

(** ** States reached by the handlers of the validation chain *)

(** After [except StopValidation as e]: the message is appended when there
    is one and it is true. *)
Definition after_stop {S} `{HasErrors S} (args : list value) (hs : heap * S)
  : heap * S :=
  match args with
  | m :: _ => if truthy m then (hs.1, set_errors (get_errors hs.2 ++ [m]) hs.2)
              else hs
  | [] => hs
  end.

(** After [except ValidationError as e]: the message is appended. *)
Definition after_error {S} `{HasErrors S} (m : value) (hs : heap * S)
  : heap * S :=
  (hs.1, set_errors (get_errors hs.2 ++ [m]) hs.2).

(** A validator that does nothing but raise [cls] with [args]. *)
Definition raising (S : Type) (cls : exn_class) (args : list value)
  : validator_obj S :=
  AnInstance (λ _, raise (Exn cls args)).

(** ** The specification's reading of some steps

    These definitions follow the words of the specification; they are
    compared with the ones above, which follow the source. *)

Module Spec.

(** Section 4.1, step 4: "If non-empty, run the type-specific
    formdata-coercion step on rawData". *)
Definition process_submission (c : Field.class) (cf : Field.config)
    (fd : option formdata) : M Field.state unit :=
  match fd with
  | Some fd =>
      let raw := match fd !! Field.name cf with Some vs => vs | None => [] end in
      modify (Field.set_raw_data raw) ;;;
      match raw with
      | [] => ret tt
      | _ :: _ =>
          try_except (Field.process_formdata c cf raw)
            [ ([ValueError], Field.record_process_error) ]
      end
  | None => ret tt
  end.

Definition process (c : Field.class) (cf : Field.config) (fd : option formdata)
    (d : value) (extra_filters : list filter_fn) : M Field.state unit :=
  modify (Field.set_process_errors []) ;;;
  d <- match d with
       | VUnset => Field.resolve_default (Field.default cf)
       | _ => ret d
       end ;;
  Field.process_object_data c cf d ;;;
  process_submission c cf fd ;;;
  Field.process_filters cf extra_filters.

(** Section 4.5, step 3: "extract every integer index i appearing as
    {name}-{i}...", deduplicated and sorted ascending. *)
Definition extract_indices (name : string) (fd : formdata) : list Z :=
  FieldList.sorted_set
    (omap (λ k : string,
             if String.prefix (name +:+ "-") k
             then let seg := first_segment
                               (string_drop (String.length (name +:+ "-")) k) in
                  if isdigit seg then Some (int_of_digits seg) else None
             else None)
          (map fst (map_to_list fd))).


(** Section 4.4: the object to populate is the existing attribute of the
    target, else the objectData originally supplied, else a failure. *)
Definition populate_candidate {Fm} (s : FormField.state Fm) (h : heap)
    (obj : value) (attr : string) : res value :=
  match getattr_or_none h obj attr with
  | VNone =>
      match FormField.object_data s with
      | VNone => Raise (Exn TypeError [VStr "populate_obj: cannot find a value to populate from the provided obj or input data/defaults"])
      | o => Ok o
      end
  | c => Ok c
  end.

End Spec.

(** ** Reference builtins

    The builtins on plain ASCII literals, to run the model on examples:
    [int] is complete on ASCII strings; [float] and [Decimal] convert the
    literals made of digits only, reject the strings that cannot start a
    literal of theirs, and answer [NotImplementedError] on the rest. *)

Module Reference.

Definition is_space (c : ascii) : bool :=
  let n := nat_of_ascii c in
  ((9 <=? n) && (n <=? 13) || (28 <=? n) && (n <=? 32))%nat.

Fixpoint lstrip (s : string) : string :=
  match s with
  | String c rest => if is_space c then lstrip rest else s
  | EmptyString => s
  end.

Definition strip (s : string) : string :=
  String.rev (lstrip (String.rev (lstrip s))).

(** Digits with single underscores between them. *)
Fixpoint int_body (acc : Z) (after_digit : bool) (s : string) : option Z :=
  match s with
  | EmptyString => if after_digit then Some acc else None
  | String c rest =>
      if is_digit c
      then int_body (10 * acc + (Z.of_nat (nat_of_ascii c) - 48)) true rest
      else if Ascii.eqb c "_"%char && after_digit then int_body acc false rest
      else None
  end.

Definition int_literal (s : string) : option Z :=
  match strip s with
  | String "-"%char rest => Z.opp <$> int_body 0 false rest
  | String "+"%char rest => int_body 0 false rest
  | t => int_body 0 false t
  end.

Definition not_implemented {A} : res A :=
  Raise (Exn (OtherError "NotImplementedError") []).

Definition int (v : value) : res value :=
  match v with
  | VInt z => Ok (VInt z)
  | VBool b => Ok (VInt (if b then 1 else 0))
  | VStr s =>
      match int_literal s with
      | Some z => Ok (VInt z)
      | None => Raise (Exn ValueError [VStr "invalid literal for int() with base 10"])
      end
  | VDecimal c e =>
      Ok (VInt (if 0 <=? e then c * 10 ^ e else Z.quot c (10 ^ (- e))))
  | VFloat _ => not_implemented
  | _ => Raise (Exn TypeError [VStr "int() argument must be a string, a bytes-like object or a real number"])
  end.

(** The binary64 pattern of a natural number below 2^53. *)
Definition float_bits (n : Z) : Z :=
  if n =? 0 then 0
  else let e := Z.log2 n in (1023 + e) * 2 ^ 52 + (n * 2 ^ (52 - e) - 2 ^ 52).

(** Whether [c] can start a literal: a sign, a digit, a point, or the first
    letter of one of the names in [letters] (inf, nan, snan). *)
Definition may_start (letters : list ascii) (c : ascii) : bool :=
  is_digit c || bool_decide (c ∈ ("+" :: "-" :: "." :: letters)%char).

Definition literal (letters : list ascii) (bad : exn) (mk : Z → value)
    (limit : option Z) (s : string) : res value :=
  match strip s with
  | EmptyString => Raise bad
  | String c _ as t =>
      if negb (may_start letters c) then Raise bad
      else if all_digits t
           then let n := int_of_digits t in
                match limit with
                | Some l => if n <? l then Ok (mk n) else not_implemented
                | None => Ok (mk n)
                end
           else not_implemented
  end.

Definition float (s : string) : res value :=
  literal ["i"; "I"; "n"; "N"]%char
    (Exn ValueError [VStr "could not convert string to float"])
    (λ n, VFloat (float_bits n)) (Some (2 ^ 53)) s.

Definition Decimal (s : string) : res value :=
  literal ["i"; "I"; "n"; "N"; "s"; "S"]%char
    (Exn InvalidOperation []) (λ n, VDecimal n 0) None s.

Definition parse_decimal (s : string) : res value :=
  literal ["i"; "I"; "n"; "N"; "s"; "S"]%char
    (Exn ValueError [VStr "is not a valid decimal number"])
    (λ n, VDecimal n 0) None s.

#[global] Instance builtins : Builtins := {
  py_int := int;
  py_float := float;
  py_Decimal := Decimal;
  babel_parse_decimal := parse_decimal;
}.

End Reference.

(** The wire name of the entry of index [i]. *)
Definition entry_name {F} (cf : FieldList.config F) (i : Z) : string :=
  FieldList._prefix cf +:+ (FieldList.short_name cf +:+ "-" +:+ pretty i).


(** ** Fields and submissions used as examples *)

Module Example.

(** The state of a field that was bound and not processed. *)
Definition fresh : Field.state := Field.State VNone None [] [] VNone.

(** The configuration of a scalar field with the default translations. *)
Definition scalar (name : string) (default : value)
    (validators : list (validator_obj Field.state)) (filters : list filter_fn)
  : Field.config :=
  Field.Config name name name default validators filters (λ s, s)
    BooleanField.false_values false.

(** A validator that records its call in the heap, then fails. *)
Definition recording_validator : validator_obj Field.state :=
  AnInstance (λ _,
    modify (λ hs : heap * Field.state,
              (<[1%positive := {["called" := VBool true]}]> hs.1, hs.2)) ;;;
    raise (Exn ValidationError [VStr "never runs"])).

(** The filter [lambda x: not x]. *)
Definition negate : filter_fn := λ v, Ok (VBool (negb (truthy v))).

(** A list of string fields named [x]. *)
Definition string_list (min : Z) (max : option Z) : FieldList.config Field.t :=
  FieldList.Config "x" "x" "x" EmptyString (VTuple []) [] (λ s, s)
    (Bound.unbound StringField.StringField Bound.no_kwargs) min max.

(** A submission with the value ["v"] under each key. *)
Definition submission (keys : list string) : formdata :=
  list_to_map (map (λ k, (k, ["v"])) keys).


(** A form field named [nested] around a form with one string field
    [name]. *)
Definition nested (default : value) : FormField.config Form.t :=
  FormField.Config "nested" "-" default
    (Form.construct VNone
       [("name", Bound.unbound StringField.StringField Bound.no_kwargs)]).

End Example.

(** What a call returned, if it returned. *)
Definition returned {A} (r : res A) : option A :=
  match r with
  | Ok a => Some a
  | Raise _ => None
  end.

(** The object value that [Field.process] coerces: [data] when it is given,
    else what the default resolves to. *)
Definition resolved (default d : value) : res value :=
  match d with
  | VUnset => (Field.resolve_default (S := unit) default tt).2
  | _ => Ok d
  end.

(** The numeric classes with their message, their conversion of a raw value
    and the exception classes of a failed conversion. *)
Inductive numeric_class `{Builtins}
  : Field.class → string → (Field.config → string → res value)
    → list exn_class → Prop :=
| nc_Integer :
    numeric_class IntegerField.IntegerField IntegerField.message
      (λ _ v, py_int (VStr v)) [ValueError]
| nc_Float :
    numeric_class FloatField.FloatField FloatField.message
      (λ _ v, py_float v) [ValueError]
| nc_Decimal :
    numeric_class DecimalField.DecimalField DecimalField.message
      (λ cf v, if Field.use_locale cf then babel_parse_decimal v
               else py_Decimal v) [InvalidOperation; ValueError].

(** [v] is not parseable: the conversion raises one of its errors. *)
Definition unparseable (parse : string → res value) (caught : list exn_class)
    (v : string) : Prop :=
  ∃ e, parse v = Raise e ∧ existsb (exn_isa e) caught = true.

(** What the coercion and filter steps of [process] leave alone. *)
Definition frame (s s' : Field.state) : Prop :=
  Field.raw_data s' = Field.raw_data s ∧ Field.errors s' = Field.errors s
  ∧ Field.object_data s' = Field.object_data s.

(** ** The calls of [_add_entry] made by a [FieldList] *)

(** One call [self._add_entry(formdata, data, index)]. *)
Abbreviation request := (value * option Z)%type.

Section Requests.
Context {F : Type} `{FieldLike F}.

Fixpoint run_requests (cf : FieldList.config F) (fd : option formdata)
    (reqs : list request) : M (FieldList.state F) unit :=
  match reqs with
  | [] => ret tt
  | (d, index) :: reqs =>
      FieldList._add_entry cf fd d index ;;; run_requests cf fd reqs
  end.

(** The indices that the calls assign when [last_index] is [last]. *)
Fixpoint assigned (last : Z) (reqs : list request) : list Z :=
  match reqs with
  | [] => []
  | (_, index) :: reqs =>
      let i := from_option (λ i, i) (last + 1) index in
      i :: assigned i reqs
  end.

(** The calls of the loop over the submitted indices. *)
Fixpoint indexed_requests (indices : list Z) (idata : list value)
  : list request :=
  match indices with
  | [] => []
  | index :: indices =>
      (match idata with v :: _ => v | [] => VUnset end, Some index)
        :: indexed_requests indices (tail idata)
  end.

(** The calls of the loop over the object data. *)
Definition each_requests (items : list value) : list request :=
  map (λ d, (d, None)) items.

(** The calls of the padding loop. *)
Definition blank_requests (n : nat) : list request :=
  replicate n (VUnset, None).

(** The indices that [FieldList.process] takes from a submission. *)
Definition submitted_indices (cf : FieldList.config F) (m : formdata)
  : list Z :=
  let indices :=
    FieldList.sorted_set (FieldList._extract_indices (FieldList.name cf) m) in
  if FieldList.max_entries_set cf
  then FieldList.slice_to
         (from_option (λ m, m) 0 (FieldList.max_entries cf)) indices
  else indices.

(** The calls that [FieldList.process] makes before it pads. *)
Definition main_requests (cf : FieldList.config F) (fd : option formdata)
    (items : list value) : list request :=
  if FieldList.formdata_truthy fd
  then indexed_requests
         (submitted_indices cf (from_option (λ m, m) ∅ fd)) items
  else each_requests items.

(** The object data that [FieldList.process] iterates: [data] when it is
    given and true, else what the default resolves to. *)
Definition list_resolved (default d : value) : res value :=
  match d with
  | VUnset => (Field.resolve_default (S := unit) default tt).2
  | _ => if truthy d then Ok d
         else (Field.resolve_default (S := unit) default tt).2
  end.

(** [f] is the entry that [_add_entry] builds at index [i] from [d]. *)
Definition created (cf : FieldList.config F) (fd : option formdata)
    (i : Z) (d : value) (f : F) : Prop :=
  ∃ f0, FieldList.unbound_field cf
          (FieldList.short_name cf +:+ "-" +:+ pretty i) (FieldList._prefix cf)
          (FieldList.id cf +:+ "-" +:+ pretty i) (FieldList.gettext cf) = Ok f0
        ∧ field_process fd d f0 = (f, Ok tt).

(** The enclosed fields can always be bound and processed. *)
Definition entries_never_fail (cf : FieldList.config F) : Prop :=
  ∀ n p i g, ∃ f, FieldList.unbound_field cf n p i g = Ok f
                  ∧ ∀ fd d, (field_process fd d f).2 = Ok tt.

(** The enclosed fields are named as [Field.__init__] names them, and
    processing does not rename them. *)
Definition entries_named (cf : FieldList.config F) : Prop :=
  (∀ n p i g f, FieldList.unbound_field cf n p i g = Ok f →
                field_name f = p +:+ n)
  ∧ (∀ fd d f, field_name (field_process fd d f).1 = field_name f).

(** [max_entries] leaves room for [n] entries. *)
Definition room_for (cf : FieldList.config F) (n : Z) : Prop :=
  FieldList.max_entries_set cf = true →
  n ≤ from_option (λ m, m) 0 (FieldList.max_entries cf).

End Requests.

(** ** Sequences of operations on a [FieldList] *)

Inductive op :=
| OpProcess (fd : option formdata) (d : value)   (* process(formdata, data) *)
| OpAppend (d : value)                           (* append_entry(data) *)
| OpPop.                                         (* pop_entry() *)

Section Operations.
Context {F : Type} `{FieldLike F}.

Definition run_op (cf : FieldList.config F) (o : op)
  : M (FieldList.state F) unit :=
  match o with
  | OpProcess fd d => FieldList.process cf fd d []
  | OpAppend d => FieldList.append_entry cf d ;;; ret tt
  | OpPop => FieldList.pop_entry ;;; ret tt
  end.

Fixpoint run_ops (cf : FieldList.config F) (ops : list op)
  : M (FieldList.state F) unit :=
  match ops with
  | [] => ret tt
  | o :: ops => run_op cf o ;;; run_ops cf ops
  end.

(** An operation that removes no entry and takes no index from a
    submission. *)
Definition grows (o : op) : Prop :=
  match o with
  | OpProcess fd _ => FieldList.formdata_truthy fd = false
  | OpAppend _ => True
  | OpPop => False
  end.



End Operations.

(** ** Validators that only judge, and chains of filters *)

(** What a validator that keeps no state can do: return, raise
    [ValidationError(m)], or raise [StopValidation] with [args]. *)
Inductive verdict :=
| Passes
| Fails (m : value)
| Stops (args : list value).

Definition judge (S : Type) (v : verdict) : validator_obj S :=
  AnInstance (λ _, match v with
                   | Passes => ret tt
                   | Fails m => raise (Exn ValidationError [m])
                   | Stops args => raise (Exn StopValidation args)
                   end).

(** The messages that a chain of such validators leaves, in order: those of
    the failures before the first stop, and that of the stop when it has one
    that is true. *)
Fixpoint messages (vs : list verdict) : list value :=
  match vs with
  | [] => []
  | Passes :: rest => messages rest
  | Fails m :: rest => m :: messages rest
  | Stops (m :: _) :: _ => if truthy m then [m] else []
  | Stops [] :: _ => []
  end.

(** Whether [validators] holds instances only. *)
Definition all_instances {S} (validators : list (validator_obj S)) : bool :=
  forallb (λ v, match v with AnInstance _ => true | _ => false end) validators.

(** The filters applied in order to [v] as far as they return: the value
    reached, and the exception of the filter that raised, if one did. *)
Fixpoint apply_filters (fs : list filter_fn) (v : value) : value * option exn :=
  match fs with
  | [] => (v, None)
  | f :: rest =>
      match f v with
      | Ok v' => apply_filters rest v'
      | Raise e => (v, Some e)
      end
  end.

(** ** The text of a field's value, [_value] *)

(** [str(v)], a builtin defined outside the repository. *)
Class Rendering := {
  py_str : value → res string;
}.

(** [StringField._value] *)
Definition StringField_value `{Rendering} (s : Field.state) : res string :=
  match Field.data s with
  | VNone => Ok EmptyString
  | d => py_str d
  end.

(** [IntegerField._value]: the first raw value when there is one, else the
    text of [data]. *)
Definition IntegerField_value `{Rendering} (s : Field.state) : res string :=
  match Field.raw_data s with
  | Some (v :: _) => Ok v
  | _ =>
      match Field.data s with
      | VNone => Ok EmptyString
      | d => py_str d
      end
  end.

(** [FloatField._value] *)
Definition FloatField_value `{Rendering} (s : Field.state) : res string :=
  match Field.raw_data s with
  | Some (v :: _) => Ok v
  | _ =>
      match Field.data s with
      | VNone => Ok EmptyString
      | d => py_str d
      end
  end.

(** [BooleanField._value]; [str] of a raw value, a string, is the value. *)
Definition BooleanField_value (s : Field.state) : res string :=
  match Field.raw_data s with
  | Some (v :: _) => Ok v
  | _ => Ok "y"
  end.

(** The classes whose [_value] starts with the raw data. *)
Inductive echoing_class `{Builtins} `{Rendering}
  : Field.class → (Field.state → res string) → Prop :=
| ec_Integer : echoing_class IntegerField.IntegerField IntegerField_value
| ec_Float : echoing_class FloatField.FloatField FloatField_value
| ec_Boolean : echoing_class BooleanField.BooleanField BooleanField_value.

(** [str] on the values whose text is plain. *)
Definition reference_str (v : value) : res string :=
  match v with
  | VNone => Ok "None"
  | VBool b => Ok (if b then "True" else "False")
  | VInt z => Ok (pretty z)
  | VStr s => Ok s
  | _ => Reference.not_implemented
  end.

#[global] Instance reference_rendering : Rendering := {
  py_str := reference_str;
}.

(** ** [class SelectField] *)

(** [a == b], a builtin operation that the classes of the values define. *)
Class Equality := {
  py_eq : value → value → res bool;
}.

Module SelectField.

(** What [SelectField.__init__] adds to a field: [coerce]; [choices], a list
    or [None]; and the truth of [validate_choice]. [RadioField] is
    [SelectField] with other widgets. *)
Record options := Options {
  coerce : value → res value;
  choices : option (list value);
  validate_choice : bool;
}.

(** [value, label = item] *)
Definition unpack2 (item : value) : res (value * value) :=
  match iterate item with
  | Ok [a; b] => Ok (a, b)
  | Ok (_ :: _ :: _ :: _) =>
      Raise (Exn ValueError [VStr "too many values to unpack (expected 2)"])
  | Ok _ =>
      Raise (Exn ValueError [VStr "not enough values to unpack (expected 2)"])
  | Raise e => Raise e
  end.

(** The sequence that [iter_choices] iterates: nothing when [choices] is
    [None] or empty, the choices themselves when the first one is a list or
    a tuple, else [zip(choices, choices)]. *)
Definition pairs (o : options) : list value :=
  match choices o with
  | None | Some [] => []
  | Some (((VList _ | VTuple _) :: _) as cs) => cs
  | Some cs => map (λ c, VTuple [c; c]) cs
  end.

(** One turn of the generator [iter_choices]:
    [yield (value, label, self.coerce(value) == self.data)]. *)
Definition option_of `{Equality} (o : options) (data item : value)
  : res (value * value * bool) :=
  match unpack2 item with
  | Raise e => Raise e
  | Ok (v, label) =>
      match coerce o v with
      | Raise e => Raise e
      | Ok c =>
          match py_eq c data with
          | Raise e => Raise e
          | Ok selected => Ok (v, label, selected)
          end
      end
  end.

(** The generator run to exhaustion over [items]. *)
Fixpoint options_of `{Equality} (o : options) (data : value)
    (items : list value) : res (list (value * value * bool)) :=
  match items with
  | [] => Ok []
  | item :: rest =>
      match option_of o data item with
      | Raise e => Raise e
      | Ok t =>
          match options_of o data rest with
          | Raise e => Raise e
          | Ok ts => Ok (t :: ts)
          end
      end
  end.

(** [SelectField.iter_choices], run to exhaustion. *)
Definition iter_choices `{Equality} (o : options) (s : Field.state)
  : res (list (value * value * bool)) :=
  options_of o (Field.data s) (pairs o).

(** [for _, _, match in self.iter_choices(): if match: break] with its
    [else] branch: the generator is run as far as the first match only; the
    result tells whether the loop was left by [break]. *)
Fixpoint find_match `{Equality} (o : options) (data : value)
    (items : list value) : res bool :=
  match items with
  | [] => Ok false
  | item :: rest =>
      match option_of o data item with
      | Raise e => Raise e
      | Ok (_, _, true) => Ok true
      | Ok (_, _, false) => find_match o data rest
      end
  end.

Definition process_data (o : options) (cf : Field.config) (v : value)
  : M Field.state unit :=
  try_except
    match v with
    | VNone => modify (Field.set_data VNone)
    | _ => c <- lift (coerce o v) ;; modify (Field.set_data c)
    end
    [ ([ValueError; TypeError], λ _, modify (Field.set_data VNone)) ].

Definition process_formdata (o : options) (cf : Field.config)
    (valuelist : list string) : M Field.state unit :=
  match valuelist with
  | [] => ret tt
  | v :: _ =>
      try_except (c <- lift (coerce o (VStr v)) ;; modify (Field.set_data c))
        [ ([ValueError],
            λ _, raise (Exn ValueError
                   [VStr (Field.gettext cf "Invalid Choice: could not coerce.")])) ]
  end.

Definition pre_validate `{Equality} (o : options) (cf : Field.config)
    (form : value) : M (heap * Field.state) unit :=
  match choices o with
  | None =>
      raise (Exn TypeError [VStr (Field.gettext cf "Choices cannot be None.")])
  | Some _ =>
      if negb (validate_choice o) then ret tt
      else
        hs <- get ;;
        found <- lift (find_match o (Field.data hs.2) (pairs o)) ;;
        if found : bool then ret tt
        else raise (Exn ValidationError
               [VStr (Field.gettext cf "Not a valid choice.")])
  end.

Definition SelectField `{Equality} (o : options) : Field.class :=
  Field.MkClass (process_data o) (process_formdata o) (pre_validate o)
    Field.base_post_validate.

End SelectField.

(** [==] on [None], booleans, integers and strings. *)
Definition reference_eq (a b : value) : res bool :=
  match a, b with
  | VNone, VNone => Ok true
  | VStr s, VStr t => Ok (String.eqb s t)
  | VInt x, VInt y => Ok (x =? y)
  | VBool x, VBool y => Ok (Bool.eqb x y)
  | VInt x, VBool y | VBool y, VInt x => Ok (x =? (if y then 1 else 0))
  | VNone, (VStr _ | VInt _ | VBool _) | (VStr _ | VInt _ | VBool _), VNone =>
      Ok false
  | VStr _, (VInt _ | VBool _) | (VInt _ | VBool _), VStr _ => Ok false
  | _, _ => Reference.not_implemented
  end.

#[global] Instance reference_equality : Equality := {
  py_eq := reference_eq;
}.

Module ExampleSelect.

(** [coerce=int] with the choices 1 ("one") and 2 ("two"). *)
Definition numbered : SelectField.options :=
  SelectField.Options Reference.int
    (Some [VTuple [VInt 1; VStr "one"]; VTuple [VInt 2; VStr "two"]]) true.

(** [coerce=int] with the choices 1 and, second, one that [int] rejects. *)
Definition broken : SelectField.options :=
  SelectField.Options Reference.int
    (Some [VTuple [VInt 1; VStr "one"]; VTuple [VStr "x"; VStr "two"]]) true.

End ExampleSelect.

(** ** The date and time fields *)

(** [datetime.datetime.strptime(date_string, format)] and the methods [date]
    and [time] of its result, defined outside the repository. *)
Class DateTime := {
  strptime : string → string → res value;
  datetime_date : value → res value;
  datetime_time : value → res value;
}.

(** [" ".join(valuelist)] *)
Fixpoint join_spaces (valuelist : list string) : string :=
  match valuelist with
  | [] => EmptyString
  | [v] => v
  | v :: rest => v +:+ " " +:+ join_spaces rest
  end.

(** [DateTimeLocalField] is [DateTimeField] with another widget. *)
Module DateTimeField.

Definition message : string := "Not a valid datetime value.".

Definition process_formdata `{DateTime} (format : string) (cf : Field.config)
    (valuelist : list string) : M Field.state unit :=
  match valuelist with
  | [] => ret tt
  | _ :: _ =>
      let date_str := join_spaces valuelist in
      try_except
        (d <- lift (strptime date_str format) ;; modify (Field.set_data d))
        [ ([ValueError], λ _, IntegerField.reject cf message) ]
  end.

Definition DateTimeField `{DateTime} (format : string) : Field.class :=
  Field.MkClass Field.base_process_data (process_formdata format)
    Field.base_pre_validate Field.base_post_validate.

End DateTimeField.

(** [MonthField] is [DateField] with another widget and default format. *)
Module DateField.

Definition message : string := "Not a valid date value.".

Definition process_formdata `{DateTime} (format : string) (cf : Field.config)
    (valuelist : list string) : M Field.state unit :=
  match valuelist with
  | [] => ret tt
  | _ :: _ =>
      let date_str := join_spaces valuelist in
      try_except
        (dt <- lift (strptime date_str format) ;;
         d <- lift (datetime_date dt) ;;
         modify (Field.set_data d))
        [ ([ValueError], λ _, IntegerField.reject cf message) ]
  end.

Definition DateField `{DateTime} (format : string) : Field.class :=
  Field.MkClass Field.base_process_data (process_formdata format)
    Field.base_pre_validate Field.base_post_validate.

End DateField.

Module TimeField.

Definition message : string := "Not a valid time value.".

Definition process_formdata `{DateTime} (format : string) (cf : Field.config)
    (valuelist : list string) : M Field.state unit :=
  match valuelist with
  | [] => ret tt
  | _ :: _ =>
      let time_str := join_spaces valuelist in
      try_except
        (dt <- lift (strptime time_str format) ;;
         t <- lift (datetime_time dt) ;;
         modify (Field.set_data t))
        [ ([ValueError], λ _, IntegerField.reject cf message) ]
  end.

Definition TimeField `{DateTime} (format : string) : Field.class :=
  Field.MkClass Field.base_process_data (process_formdata format)
    Field.base_pre_validate Field.base_post_validate.

End TimeField.

(** The date and time classes with their message and their conversion of
    the joined text. *)
Inductive temporal_class `{DateTime}
  : Field.class → string → (string → res value) → Prop :=
| tc_DateTime format :
    temporal_class (DateTimeField.DateTimeField format) DateTimeField.message
      (λ text, strptime text format)
| tc_Date format :
    temporal_class (DateField.DateField format) DateField.message
      (λ text, match strptime text format with
               | Ok dt => datetime_date dt
               | Raise e => Raise e
               end)
| tc_Time format :
    temporal_class (TimeField.TimeField format) TimeField.message
      (λ text, match strptime text format with
               | Ok dt => datetime_time dt
               | Raise e => Raise e
               end).

(** [strptime] for the format ["%Y"], a year of four digits; a date and
    time is the tuple of its year, month, day, hour, minute and second. *)
Definition reference_strptime (text format : string) : res value :=
  if String.eqb format "%Y" then
    if (String.length text =? 4)%nat && all_digits text
       && (0 <? int_of_digits text)
    then Ok (VTuple [VInt (int_of_digits text); VInt 1; VInt 1;
                     VInt 0; VInt 0; VInt 0])
    else Raise (Exn ValueError [VStr "time data does not match format"])
  else Reference.not_implemented.

Definition reference_date (dt : value) : res value :=
  match dt with
  | VTuple [y; m; d; _; _; _] => Ok (VTuple [y; m; d])
  | _ => Raise (Exn AttributeError [VStr "object has no attribute date"])
  end.

Definition reference_time (dt : value) : res value :=
  match dt with
  | VTuple [_; _; _; h; m; s] => Ok (VTuple [h; m; s])
  | _ => Raise (Exn AttributeError [VStr "object has no attribute time"])
  end.

#[global] Instance reference_datetime : DateTime := {
  strptime := reference_strptime;
  datetime_date := reference_date;
  datetime_time := reference_time;
}.

(** ** [FieldList.populate_obj] and the property [FieldList.data] *)

(** The method [populate_obj] of an enclosed field. *)
Class Populating (F : Type) := {
  field_populate_obj : F → value → string → M heap unit;
}.

#[global] Instance field_populating : Populating Field.t := {
  field_populate_obj f := Field.populate_obj (Field.st f);
}.

(** [getattr(obj, name)] *)
Definition getattr (h : heap) (obj : value) (attr : string) : res value :=
  match obj with
  | VRef l =>
      match h !! l ≫= (.!! attr) with
      | Some v => Ok v
      | None =>
          Raise (Exn AttributeError [VStr ("object has no attribute " +:+ attr)])
      end
  | _ => Raise (Exn AttributeError [VStr ("object has no attribute " +:+ attr)])
  end.

Module FieldListObject.

(** The property [FieldList.data] of a list of scalar fields:
    [[f.data for f in self.entries]]. *)
Definition data (s : FieldList.state Field.t) : list value :=
  map (λ f, Field.data (Field.st f)) (FieldList.entries s).

Section WithEntries.
Context {F : Type} `{Populating F}.

(** [_fake()]: a new object, at a location that the heap does not hold. *)
Definition new_object (h : heap) : loc := fresh (dom h : gset loc).

(** [for field, data in zip(self.entries, candidates)] with the [output] it
    builds; [ivalues] is what is left of the iterator over the values of the
    target, after which the candidates are [None]. *)
Fixpoint populate_entries (todo : list F) (ivalues : list value)
  : M heap (list value) :=
  match todo with
  | [] => ret []
  | field :: rest =>
      let data := match ivalues with v :: _ => v | [] => VNone end in
      h <- get ;;
      let fake_obj := VRef (new_object h) in
      setattr fake_obj "data" data ;;;
      field_populate_obj field fake_obj "data" ;;;
      h <- get ;;
      out <- lift (getattr h fake_obj "data") ;;
      output <- populate_entries rest (tail ivalues) ;;
      ret (out :: output)
  end.

(** [FieldList.populate_obj] *)
Definition populate_obj (s : FieldList.state F) (obj : value) (name : string)
  : M heap unit :=
  h <- get ;;
  let values := getattr_or_none h obj name in
  ivalues <- try_except (lift (iterate values)) [ ([TypeError], λ _, ret []) ] ;;
  output <- populate_entries (FieldList.entries s) ivalues ;;
  setattr obj name (VList output).

End WithEntries.

End FieldListObject.

(** * Properties *)

(** Unfold the monad operations and compute. *)
Ltac mrun :=
  unfold Py.bind, Py.ret, Py.lift, Py.modify, Py.get, Py.raise, Py.try_except in *;
  cbn in *.

(** Case analysis on an innermost scrutinee of the goal. *)
Ltac break_match :=
  match goal with
  | |- context [match ?x with _ => _ end] =>
      lazymatch x with
      | context [match _ with _ => _ end] => fail
      | _ => destruct x eqn:?
      end
  end.

(** ** Processing of scalar fields *)

Section Scalar.
Context `{Builtins}.

Lemma frame_refl s : frame s s.
Proof. by unfold frame. Qed.

Lemma frame_trans s1 s2 s3 : frame s1 s2 → frame s2 s3 → frame s1 s3.
Proof. unfold frame. intros (-> & -> & ->) (-> & -> & ->). done. Qed.

Lemma scalar_process_data_frame c cf d s :
  scalar_class c →
  frame s (try_except (Field.process_data c cf d)
             [([ValueError], Field.record_process_error)] s).1.
Proof.
  intros [].
  all: cbn; unfold IntegerField.process_data, BooleanField.process_data,
         IntegerField.reject, Field.record_process_error,
         Field.base_process_data.
  all: mrun; repeat (break_match; cbn in *; simplify_eq); by unfold frame.
Qed.

Lemma scalar_process_formdata_frame c cf raw s :
  scalar_class c →
  frame s (try_except (Field.process_formdata c cf raw)
             [([ValueError], Field.record_process_error)] s).1.
Proof.
  intros [].
  all: destruct raw as [|v raw]; try apply frame_refl.
  all: cbn; unfold IntegerField.process_formdata,
         DecimalField.process_formdata, FloatField.process_formdata,
         BooleanField.process_formdata, IntegerField.reject,
         Field.record_process_error.
  all: mrun; repeat (break_match; cbn in *; simplify_eq); by unfold frame.
Qed.

Lemma run_filters_frame fs s : frame s (Field.run_filters fs s).1.
Proof.
  revert s. induction fs as [|f fs IH]; intros s; [apply frame_refl|].
  cbn [Field.run_filters]. mrun. destruct (f (Field.data s)); cbn.
  - eapply frame_trans; [|apply IH]. by unfold frame.
  - apply frame_refl.
Qed.

Lemma process_filters_frame cf xf s :
  frame s (Field.process_filters cf xf s).1.
Proof.
  unfold Field.process_filters, try_except.
  pose proof (run_filters_frame (Field.filters cf ++ xf) s) as Hf.
  destruct (Field.run_filters _ s) as [s' [|e]]; [done|]. cbn in *.
  destruct (exn_isa e ValueError); cbn; [|done].
  unfold Field.record_process_error. mrun.
  destruct (args0 e); cbn; [|done].
  eapply frame_trans; [apply Hf|]. by unfold frame.
Qed.

Lemma process_submission_eq c cf (fd : formdata) s :
  Field.process_submission c cf (Some fd) s
  = try_except
      (Field.process_formdata c cf
         (from_option (λ vs, vs) [] (fd !! Field.name cf)))
      [([ValueError], Field.record_process_error)]
      (Field.set_raw_data (from_option (λ vs, vs) [] (fd !! Field.name cf)) s).
Proof.
  unfold Field.process_submission. mrun. by destruct (fd !! Field.name cf).
Qed.


(** C3, amended. When a submission is supplied, [Field.process] sets
    [raw_data] to the list of values under the field's key, or to the empty
    list when the key is absent, and then always runs the formdata coercion
    of the class on [raw_data], also when it is empty. On an absent key the
    coercion of [Field], [StringField], [IntegerField], [FloatField] and
    [DecimalField] returns at once and leaves [data] as the object data
    made it, and the coercion of [BooleanField] sets [data] to false. *)
Theorem process_submission_always_coerces c cf (fd : formdata) s :
  scalar_class c →
  let raw := from_option (λ vs, vs) [] (fd !! Field.name cf) in
  Field.process_submission c cf (Some fd) s
  = try_except (Field.process_formdata c cf raw)
      [([ValueError], Field.record_process_error)] (Field.set_raw_data raw s)
  ∧ Field.raw_data (Field.process_submission c cf (Some fd) s).1 = Some raw
  ∧ (fd !! Field.name cf = None →
     (c ≠ BooleanField.BooleanField →
      Field.process_submission c cf (Some fd) s = (Field.set_raw_data [] s, Ok tt))
     ∧ (c = BooleanField.BooleanField →
        Field.process_submission c cf (Some fd) s
        = (Field.set_data (VBool false) (Field.set_raw_data [] s), Ok tt))).
Proof.
  intros Hc raw. pose proof (process_submission_eq c cf fd s) as Heq.
  fold raw in Heq.
  split; [exact Heq|]. split.
  - rewrite Heq.
    by destruct (scalar_process_formdata_frame c cf raw
                   (Field.set_raw_data raw s) Hc) as (-> & _).
  - intros Hnone. rewrite Heq. unfold raw. rewrite Hnone. cbn.
    split; [intros Hne | intros ->]; [|reflexivity].
    destruct Hc; try reflexivity. done.
Qed.

End Scalar.

Lemma process_submission_always_coerces_witness :
  Field.process_submission BooleanField.BooleanField
    (Example.scalar "b" VNone [] []) (Some ∅) Example.fresh
  = (Field.set_data (VBool false) (Field.set_raw_data [] Example.fresh), Ok tt).
Proof.
  apply (process_submission_always_coerces
           BooleanField.BooleanField (Example.scalar "b" VNone [] []) ∅
           Example.fresh sc_BooleanField); reflexivity.
Defined.

(** C3 fails as stated: a Boolean field processed with the object value
    true and a submission without its key ends with [data = False], because
    the coercion runs on the empty list; were the coercion skipped on empty
    raw data, as the claim says, [data] would stay true. *)
Lemma coercion_runs_on_absent_key :
  let c := BooleanField.BooleanField in
  let cf := Example.scalar "b" VNone [] [] in
  Field.data (Field.process c cf (Some ∅) (VBool true) [] Example.fresh).1
  = VBool false
  ∧ Field.data (Spec.process c cf (Some ∅) (VBool true) [] Example.fresh).1
    = VBool true
  ∧ Field.process c cf (Some ∅) (VBool true) [] Example.fresh
    ≠ Spec.process c cf (Some ∅) (VBool true) [] Example.fresh.
Proof. split; [reflexivity|]. split; [reflexivity|]. discriminate. Qed.

(** ** The validation chain *)

Section Chain.
Context {S : Type} `{HasErrors S}.

Lemma chain_cons_ok form v rest hs hs' :
  call_validator v form hs = (hs', Ok tt) →
  Field._run_validation_chain form (v :: rest) hs
  = Field._run_validation_chain form rest hs'.
Proof.
  intros Hv. cbn [Field._run_validation_chain].
  unfold bind, try_except. rewrite Hv. reflexivity.
Qed.

Lemma chain_cons_stop form v rest hs hs' args :
  call_validator v form hs = (hs', Raise (Exn StopValidation args)) →
  Field._run_validation_chain form (v :: rest) hs = (after_stop args hs', Ok true).
Proof.
  intros Hv. cbn [Field._run_validation_chain].
  unfold bind, try_except. rewrite Hv. cbn.
  unfold Field.append_message_if_any, after_stop, append_error, modify, ret.
  cbn. destruct args as [|m ?]; [reflexivity|]. destruct (truthy m); reflexivity.
Qed.

Lemma chain_cons_error form v rest hs hs' m args :
  call_validator v form hs = (hs', Raise (Exn ValidationError (m :: args))) →
  Field._run_validation_chain form (v :: rest) hs
  = Field._run_validation_chain form rest (after_error m hs').
Proof.
  intros Hv. cbn [Field._run_validation_chain].
  unfold bind, try_except. rewrite Hv. reflexivity.
Qed.

(** Validators that ran before a stop do not change what a stop does. *)
Lemma chain_app_not_stopped form pre rest hs hs1 :
  Field._run_validation_chain form pre hs = (hs1, Ok false) →
  Field._run_validation_chain form (pre ++ rest) hs
  = Field._run_validation_chain form rest hs1.
Proof.
  revert hs. induction pre as [|v pre IH]; intros hs Hpre.
  - cbn in Hpre. unfold ret in Hpre. by simplify_eq.
  - rewrite <- app_comm_cons. revert Hpre. cbn [Field._run_validation_chain].
    unfold bind.
    destruct (try_except _ _ hs) as [hs' [[|]|e]]; cbn.
    + unfold ret. intros ?; simplify_eq.
    + apply IH.
    + intros ?; simplify_eq.
Qed.

End Chain.

(** C1. While the validation chain runs (the validators of the field, then
    the extra validators, in order), a validator that raises StopValidation
    halts the chain at once: the validators after it are not called, the
    chain reports that it was stopped, and the message is appended to
    [errors] only when there is one and it is true. A validator that raises
    ValidationError has its message appended and the chain goes on with the
    next validator. For a field with the hooks of [Field] and the validators
    [v1 raising StopValidation("stop"); v2], [validate] ends with
    [errors = process_errors ++ ["stop"]], that is exactly ["stop"] for a
    field without process errors, and returns false; neither the heap nor the
    state shows any effect of [v2] or of the extra validators, whatever they
    are: they were not called. *)
Theorem validation_chain_halts_on_StopValidation :
  (∀ S (HE : HasErrors S) form pre v rest hs hs1 hs2 args,
      Field._run_validation_chain form pre hs = (hs1, Ok false) →
      call_validator v form hs1 = (hs2, Raise (Exn StopValidation args)) →
      Field._run_validation_chain form (pre ++ v :: rest) hs
      = (after_stop args hs2, Ok true))
  ∧ (∀ S (HE : HasErrors S) form v rest hs hs' m args,
      call_validator v form hs = (hs', Raise (Exn ValidationError (m :: args))) →
      Field._run_validation_chain form (v :: rest) hs
      = Field._run_validation_chain form rest (after_error m hs'))
  ∧ (∀ c cf form v2 extra h s,
      Field.pre_validate c = Field.base_pre_validate →
      Field.post_validate c = Field.base_post_validate →
      Field.validators cf = [raising _ StopValidation [VStr "stop"]; v2] →
      Field.check_validators extra = Ok tt →
      Field.validate c cf form extra (h, s)
      = ((h, set_errors (Field.process_errors s ++ [VStr "stop"]) s), Ok false)).
Proof.
  split; [|split].
  - intros S HE form pre v rest hs hs1 hs2 args Hpre Hv.
    rewrite (chain_app_not_stopped _ _ _ _ _ Hpre).
    by apply chain_cons_stop.
  - intros S HE form v rest hs hs' m args Hv. by eapply chain_cons_error.
  - intros c cf form v2 extra h s Hpre Hpost Hvs Hextra.
    unfold Field.validate, Field.validate_with.
    rewrite Hpre, Hpost, Hvs, Hextra.
    cbn. unfold bind. cbn.
    destruct (Field.process_errors s); reflexivity.
Qed.

(** ** [Field.process] step by step *)

Lemma process_resolved c cf fd d d' xf s :
  resolved (Field.default cf) d = Ok d' →
  Field.process c cf fd d xf s
  = (Field.process_object_data c cf d' ;;;
     Field.process_submission c cf fd ;;;
     Field.process_filters cf xf) (Field.set_process_errors [] s).
Proof.
  unfold resolved, Field.process, Field.resolve_default. intros Hd.
  destruct d; mrun; simplify_eq; try reflexivity.
  destruct (call0 (Field.default cf)) as [v|e]; cbn in *; simplify_eq; [done|].
  destruct (exn_isa e TypeError); cbn in *; by simplify_eq.
Qed.

Lemma process_filters_nil cf :
  Field.filters cf = [] → Field.process_filters cf [] = ret tt.
Proof. unfold Field.process_filters. intros ->. reflexivity. Qed.

(** ** Boolean fields *)

(** C9, amended. For every Boolean field without filters whose object value
    resolves, processing with a submission returns normally and leaves
    [data = False] when the key is present and its first raw value is in
    [false_values], [data = True] when the key is present with another first
    value, and [data = False] when the key is absent (or present without a
    value). *)
Theorem boolean_field_data_without_filters cf fd d d' s :
  Field.filters cf = [] →
  resolved (Field.default cf) d = Ok d' →
  ∃ s', Field.process BooleanField.BooleanField cf (Some fd) d [] s = (s', Ok tt)
        ∧ Field.data s'
          = VBool match fd !! Field.name cf with
                  | Some (v :: _) =>
                      negb (BooleanField.str_in v (Field.false_values cf))
                  | Some [] | None => false
                  end.
Proof.
  intros Hf Hd. rewrite (process_resolved _ _ _ _ _ _ _ Hd).
  rewrite process_filters_nil by done.
  unfold Field.process_object_data, Field.process_submission. mrun.
  destruct (fd !! Field.name cf) as [[|v vs]|]; cbn; eauto.
  destruct (BooleanField.str_in v (Field.false_values cf)); cbn; eauto.
Qed.

Lemma boolean_field_data_without_filters_witness :
  ∃ s', Field.process BooleanField.BooleanField (Example.scalar "b" VNone [] [])
          (Some {["b" := ["false"]]}) VUnset [] Example.fresh = (s', Ok tt)
        ∧ Field.data s' = VBool false.
Proof.
  exact (boolean_field_data_without_filters (Example.scalar "b" VNone [] [])
           {["b" := ["false"]]} VUnset VNone Example.fresh eq_refl eq_refl).
Defined.

(** C9 fails as stated: the filters run after the coercion, so a Boolean
    field with the filter [lambda x: not x] processed with the raw value
    "false" ends with [data = True]. *)
Lemma boolean_field_data_with_filter :
  Field.process BooleanField.BooleanField
    (Example.scalar "b" VNone [] [Example.negate])
    (Some {["b" := ["false"]]}) VUnset [] Example.fresh
  = (Field.State (VBool true) (Some ["false"]) [] [] VNone, Ok tt).
Proof. reflexivity. Qed.

(** ** Numeric fields *)

Section Numeric.
Context `{Builtins}.

Lemma numeric_process_data_ok c msg parse caught cf d s s1 :
  numeric_class c msg parse caught →
  Field.process_data c cf d s = (s1, Ok tt) →
  ∃ x, s1 = Field.set_data x s.
Proof.
  intros [] Hd; cbn in Hd.
  - unfold IntegerField.process_data, IntegerField.reject in Hd.
    destruct d; mrun; simplify_eq; eauto.
    all: destruct (py_int _) as [n|e]; cbn in *; simplify_eq; eauto.
    all: destruct (exn_isa e ValueError || (exn_isa e TypeError || false));
      cbn in *; simplify_eq.
  - unfold Field.base_process_data in Hd. mrun. simplify_eq. eauto.
  - unfold Field.base_process_data in Hd. mrun. simplify_eq. eauto.
Qed.

Lemma numeric_process_formdata_rejects c msg parse caught cf v rest s :
  numeric_class c msg parse caught →
  unparseable (parse cf) caught v →
  Field.process_formdata c cf (v :: rest) s
  = (Field.set_data VNone s, Raise (Exn ValueError [VStr (Field.gettext cf msg)])).
Proof.
  intros [] (e & Hparse & Hcaught); cbn.
  all: unfold IntegerField.process_formdata, FloatField.process_formdata,
         DecimalField.process_formdata, IntegerField.reject.
  all: mrun; rewrite Hparse; cbn; rewrite Hcaught; reflexivity.
Qed.

(** C8, amended. For every Integer, Float and Decimal field with no
    validators and no filters, whose object value resolves and is coerced
    without error, processing a submission whose first raw value the
    conversion of the class rejects returns normally (the failure is caught
    inside [process]) with [data = None]; [validate] then returns false and
    leaves exactly one error, the message of the class as the field's
    translations give it, with [data] still [None]. *)
Theorem numeric_field_rejects_unparseable
    c msg parse caught cf fd d d' v rest s :
  numeric_class c msg parse caught →
  Field.validators cf = [] →
  Field.filters cf = [] →
  resolved (Field.default cf) d = Ok d' →
  (∀ s0, (Field.process_data c cf d' s0).2 = Ok tt) →
  fd !! Field.name cf = Some (v :: rest) →
  unparseable (parse cf) caught v →
  ∃ s', Field.process c cf (Some fd) d [] s = (s', Ok tt)
        ∧ Field.data s' = VNone
        ∧ ∀ h form, ∃ s'',
            Field.validate c cf form [] (h, s') = ((h, s''), Ok false)
            ∧ Field.errors s'' = [VStr (Field.gettext cf msg)]
            ∧ Field.data s'' = VNone.
Proof.
  intros Hc Hvs Hfs Hd Hdata Hkey Hv.
  rewrite (process_resolved _ _ _ _ _ _ _ Hd).
  rewrite process_filters_nil by done.
  unfold Field.process_object_data, Field.process_submission.
  rewrite Hkey.
  set (s0 := Field.set_object_data d' (Field.set_process_errors [] s)).
  specialize (Hdata s0).
  destruct (Field.process_data c cf d' s0) as [s1 r] eqn:Hpd.
  cbn in Hdata. subst r.
  destruct (numeric_process_data_ok _ _ _ _ _ _ _ _ Hc Hpd) as [x ->].
  mrun. fold s0. rewrite Hpd. cbn.
  rewrite (numeric_process_formdata_rejects _ _ _ _ _ _ rest _ Hc Hv). cbn.
  eexists. split; [reflexivity|]. split; [reflexivity|].
  intros h form. unfold Field.validate, Field.validate_with. rewrite Hvs.
  assert (Field.pre_validate c = Field.base_pre_validate
          ∧ Field.post_validate c = Field.base_post_validate) as [-> ->]
    by (by destruct Hc).
  mrun. eexists. split; [reflexivity|]. by split.
Qed.

End Numeric.

Lemma numeric_field_rejects_unparseable_witness :
  ∃ s', Field.process IntegerField.IntegerField (Example.scalar "n" VNone [] [])
          (Some {["n" := ["abc"]]}) VUnset [] Example.fresh = (s', Ok tt)
        ∧ Field.data s' = VNone
        ∧ ∀ h form, ∃ s'',
            Field.validate IntegerField.IntegerField
              (Example.scalar "n" VNone [] []) form [] (h, s')
            = ((h, s''), Ok false)
            ∧ Field.errors s'' = [VStr "Not a valid integer value."]
            ∧ Field.data s'' = VNone.
Proof.
  refine (numeric_field_rejects_unparseable
            IntegerField.IntegerField _ _ _ (Example.scalar "n" VNone [] [])
            {["n" := ["abc"]]} VUnset VNone "abc" [] Example.fresh
            nc_Integer eq_refl eq_refl eq_refl (λ _, eq_refl) eq_refl _).
  eexists. split; reflexivity.
Defined.

(** C8 fails as stated: an Integer field without validators whose object
    value "abc" is itself not an integer ends with the message twice in
    [errors]; and a field with a filter ends with the [data] the filter
    returns, not with [None]. *)
Lemma numeric_field_errors_twice_or_filtered :
  (let cf := Example.scalar "n" VNone [] [] in
   ∃ s', Field.process IntegerField.IntegerField cf
           (Some {["n" := ["xyz"]]}) (VStr "abc") [] Example.fresh = (s', Ok tt)
         ∧ Field.validate IntegerField.IntegerField cf VNone [] (∅, s')
           = ((∅, Field.State VNone (Some ["xyz"])
                    [VStr "Not a valid integer value.";
                     VStr "Not a valid integer value."]
                    [VStr "Not a valid integer value.";
                     VStr "Not a valid integer value."] (VStr "abc")),
              Ok false))
  ∧ (let cf := Example.scalar "n" VNone [] [Example.negate] in
     Field.data
       (Field.process IntegerField.IntegerField cf
          (Some {["n" := ["xyz"]]}) VUnset [] Example.fresh).1
     = VBool true).
Proof. split; [eexists; split; reflexivity | reflexivity]. Qed.

(** ** A default that cannot be called *)

Section Default.
Context `{Builtins}.


End Default.


(** ** Entries of a [FieldList] *)

Section Entries.
Context {F : Type} `{FieldLike F}.
Implicit Types (cf : FieldList.config F) (s : FieldList.state F).

Lemma last_cons_default {A} (x d : A) l :
  List.last (x :: l) d = List.last l x.
Proof.
  revert x d. induction l as [|y l IH]; intros x d; [done|].
  change (List.last (x :: y :: l) d) with (List.last (y :: l) d).
  by rewrite !IH.
Qed.

Lemma add_entry_inv cf fd d index s s' f :
  FieldList._add_entry cf fd d index s = (s', Ok f) →
  let i := from_option (λ i, i) (FieldList.last_index s + 1) index in
  FieldList.last_index s' = i
  ∧ FieldList.entries s' = FieldList.entries s ++ [f]
  ∧ FieldList.errors s' = FieldList.errors s
  ∧ FieldList.object_data s' = FieldList.object_data s
  ∧ created cf fd i d f
  ∧ room_for cf (Z.of_nat (length (FieldList.entries s')))%Z.
Proof.
  unfold FieldList._add_entry, created, room_for. mrun. intros Hadd.
  destruct (negb (FieldList.max_entries_set cf)) eqn:Hmax; cbn in Hadd.
  - destruct (FieldList.unbound_field cf _ _ _ _) as [f0|e] eqn:Hb;
      cbn in Hadd; [|done].
    destruct (field_process fd d f0) as [f1 [[]|e]] eqn:Hp;
      cbn in Hadd; simplify_eq. cbn.
    repeat split; try by destruct index.
    + exists f0. split; [by destruct index|done].
    + intros ?. by destruct (FieldList.max_entries_set cf).
  - case_bool_decide as Hlt; cbn in Hadd; [|done].
    destruct (FieldList.unbound_field cf _ _ _ _) as [f0|e] eqn:Hb;
      cbn in Hadd; [|done].
    destruct (field_process fd d f0) as [f1 [[]|e]] eqn:Hp;
      cbn in Hadd; simplify_eq. cbn.
    repeat split; try by destruct index.
    + exists f0. split; [by destruct index|done].
    + intros _. rewrite length_app. cbn. lia.
Qed.

Lemma add_entry_total cf fd d index s :
  entries_never_fail cf →
  room_for cf (Z.of_nat (length (FieldList.entries s)) + 1) →
  ∃ s' f, FieldList._add_entry cf fd d index s = (s', Ok f).
Proof.
  intros Hnf Hroom. unfold FieldList._add_entry, room_for in *. mrun.
  assert (negb (FieldList.max_entries_set cf)
          || bool_decide (Z.of_nat (length (FieldList.entries s))
                          < from_option (λ m, m) 0 (FieldList.max_entries cf))
          = true) as ->.
  { destruct (FieldList.max_entries_set cf); [|done]. cbn.
    apply bool_decide_eq_true. specialize (Hroom eq_refl). lia. }
  cbn.
  match goal with
  | |- context [FieldList.unbound_field cf ?n ?p ?i ?g] =>
      destruct (Hnf n p i g) as (f0 & -> & Hp)
  end.
  cbn. specialize (Hp fd d).
  destruct (field_process fd d f0) as [f1 r]. cbn in Hp. subst r. cbn. eauto.
Qed.

Lemma run_requests_inv cf fd reqs s s' :
  run_requests cf fd reqs s = (s', Ok tt) →
  ∃ fs, FieldList.entries s' = FieldList.entries s ++ fs
        ∧ Forall2 (λ p f, created cf fd p.1 p.2 f)
            (zip (assigned (FieldList.last_index s) reqs) (reqs.*1)) fs
        ∧ FieldList.last_index s'
          = List.last (assigned (FieldList.last_index s) reqs)
              (FieldList.last_index s)
        ∧ FieldList.errors s' = FieldList.errors s
        ∧ FieldList.object_data s' = FieldList.object_data s
        ∧ (reqs ≠ [] →
           room_for cf (Z.of_nat (length (FieldList.entries s')))).
Proof.
  revert s. induction reqs as [|[d index] reqs IH]; intros s Hrun.
  - cbn in Hrun. unfold ret in Hrun. simplify_eq. exists [].
    rewrite app_nil_r. by repeat split.
  - cbn [run_requests] in Hrun. unfold bind in Hrun.
    destruct (FieldList._add_entry cf fd d index s) as [s1 [f|e]] eqn:Hadd;
      [|done].
    apply add_entry_inv in Hadd as (Hlast & Hent & Herr & Hobj & Hcr & Hroom).
    apply IH in Hrun as (fs & Hent' & Hall & Hlast' & Herr' & Hobj' & Hroom').
    rewrite Hlast in Hall, Hlast'.
    exists (f :: fs). rewrite Hent', Hent, <- app_assoc. cbn [assigned].
    split; [done|]. split; [by constructor|]. split.
    { rewrite Hlast'. cbn zeta. by rewrite last_cons_default. }
    split; [congruence|]. split; [congruence|]. intros _.
    destruct reqs as [|r reqs].
    + inversion Hall; subst. by rewrite Hent in Hroom.
    + rewrite Hent', Hent, <- app_assoc in Hroom'. by apply Hroom'.
Qed.

Lemma run_requests_total cf fd reqs s :
  entries_never_fail cf →
  room_for cf (Z.of_nat (length (FieldList.entries s) + length reqs)) →
  ∃ s', run_requests cf fd reqs s = (s', Ok tt).
Proof.
  intros Hnf. revert s. induction reqs as [|[d index] reqs IH]; intros s Hroom.
  - by exists s.
  - cbn [run_requests]. unfold bind.
    destruct (add_entry_total cf fd d index s Hnf) as (s1 & f & Hadd).
    { intros Hset. specialize (Hroom Hset). cbn [length] in Hroom. lia. }
    rewrite Hadd.
    apply add_entry_inv in Hadd as (_ & Hent & _).
    apply IH. intros Hset. specialize (Hroom Hset).
    rewrite Hent, length_app. cbn [length] in *. lia.
Qed.

Lemma add_indexed_requests cf fd indices idata :
  FieldList.add_indexed cf fd indices idata
  = run_requests cf fd (indexed_requests indices idata).
Proof.
  revert idata. induction indices as [|i indices IH]; intros idata; [done|].
  cbn. by rewrite IH.
Qed.

Lemma add_each_requests cf fd items :
  FieldList.add_each cf fd items = run_requests cf fd (each_requests items).
Proof. induction items as [|d items IH]; [done|]. cbn. by rewrite IH. Qed.

(** The turns given to the padding loop are enough. *)
Lemma pad_enough cf fd n s :
  let k := Z.to_nat (FieldList.min_entries cf
                     - Z.of_nat (length (FieldList.entries s))) in
  (k ≤ n)%nat →
  FieldList.pad n cf fd s = run_requests cf fd (blank_requests k) s.
Proof.
  revert s. induction n as [|n IH]; intros s k Hk.
  - assert (k = 0%nat) as Hk0 by lia. rewrite Hk0.
    cbn. unfold bind, get. cbn. by case_bool_decide.
  - cbn [FieldList.pad]. unfold bind at 1. unfold get at 1.
    case_bool_decide as Hlt.
    + assert (k = S (Z.to_nat (FieldList.min_entries cf
                     - Z.of_nat (S (length (FieldList.entries s))))))
        as Hk' by lia.
      rewrite Hk'. cbn [blank_requests replicate run_requests]. unfold bind.
      destruct (FieldList._add_entry cf fd VUnset None s)
        as [s1 [f|e]] eqn:Hadd; [|done].
      apply add_entry_inv in Hadd as (_ & Hent & _).
      rewrite IH; rewrite Hent, length_app; cbn [length].
      * by rewrite Nat.add_1_r.
      * lia.
    + assert (k = 0%nat) as -> by lia. done.
Qed.

End Entries.

Section Process.
Context {F : Type} `{FieldLike F}.
Implicit Types (cf : FieldList.config F) (s : FieldList.state F).

(** [FieldList.process] as the calls of [_add_entry] it makes. *)
Lemma process_requests cf fd d s :
  FieldList.process cf fd d [] s
  = match list_resolved (FieldList.default cf) d with
    | Raise e => (FieldList.set_entries [] s, Raise e)
    | Ok d' =>
        let s0 := FieldList.set_object_data d' (FieldList.set_entries [] s) in
        match iterate d' with
        | Raise e => (s0, Raise e)
        | Ok items =>
            match run_requests cf fd (main_requests cf fd items) s0 with
            | (s1, Raise e) => (s1, Raise e)
            | (s1, Ok _) =>
                run_requests cf fd
                  (blank_requests
                     (Z.to_nat (FieldList.min_entries cf
                                - Z.of_nat (length (FieldList.entries s1)))))
                  s1
            end
        end
    end.
Proof.
  assert (∀ d' : value,
    (modify (FieldList.set_object_data d') ;;;
     (if FieldList.formdata_truthy fd then
        let indices :=
          FieldList.sorted_set
            (FieldList._extract_indices (FieldList.name cf)
               (from_option (λ m, m) ∅ fd)) in
        let indices :=
          if FieldList.max_entries_set cf
          then FieldList.slice_to
                 (from_option (λ m, m) 0 (FieldList.max_entries cf)) indices
          else indices in
        idata <- lift (iterate d') ;;
        FieldList.add_indexed cf fd indices idata
      else
        items <- lift (iterate d') ;;
        FieldList.add_each cf fd items) ;;;
     s <- get ;;
     FieldList.pad
       (Z.to_nat (FieldList.min_entries cf
                  - Z.of_nat (length (FieldList.entries s)))) cf fd)
      (FieldList.set_entries [] s)
    = let s0 := FieldList.set_object_data d' (FieldList.set_entries [] s) in
      match iterate d' with
      | Raise e => (s0, Raise e)
      | Ok items =>
          match run_requests cf fd (main_requests cf fd items) s0 with
          | (s1, Raise e) => (s1, Raise e)
          | (s1, Ok _) =>
              run_requests cf fd
                (blank_requests
                   (Z.to_nat (FieldList.min_entries cf
                              - Z.of_nat (length (FieldList.entries s1)))))
                s1
          end
      end) as Hrest.
  { intros d'. unfold main_requests, submitted_indices.
    unfold bind at 1 2. unfold modify at 1. cbn zeta.
    destruct (FieldList.formdata_truthy fd).
    - unfold bind at 1, lift at 1.
      destruct (iterate d') as [items|e]; [|done].
      rewrite add_indexed_requests.
      destruct (run_requests _ _ _ _) as [s1 [[]|e]]; [|done].
      unfold bind, get. by rewrite pad_enough.
    - unfold bind at 1, lift at 1.
      destruct (iterate d') as [items|e]; [|done].
      rewrite add_each_requests.
      destruct (run_requests _ _ _ _) as [s1 [[]|e]]; [|done].
      unfold bind, get. by rewrite pad_enough. }
  unfold FieldList.process, list_resolved, Field.resolve_default.
  unfold bind at 1 2. unfold modify at 1.
  destruct d; try (unfold ret at 1; cbn [truthy]; rewrite <- Hrest; done).
  all: try
    (cbn [truthy];
     match goal with
     | |- context [if ?b then _ else _] => destruct b
     end;
     [unfold ret at 1; rewrite <- Hrest; done|]).
  all: unfold try_except, lift; destruct (call0 (FieldList.default cf))
         as [v|e]; cbn; [by rewrite <- Hrest|];
       destruct (exn_isa e TypeError); cbn; [|done];
       unfold ret; by rewrite <- Hrest.
Qed.

End Process.

(** ** Keys of a submission *)

Lemma string_app_cons (x : ascii) (a b : string) :
  String x a +:+ b = String x (a +:+ b).
Proof. reflexivity. Qed.

Lemma string_app_assoc (a b c : string) : (a +:+ b) +:+ c = a +:+ (b +:+ c).
Proof.
  induction a as [|x a IH]; [done|]. by rewrite !string_app_cons, IH.
Qed.

Lemma string_length_app (a b : string) :
  String.length (a +:+ b) = (String.length a + String.length b)%nat.
Proof.
  induction a as [|x a IH]; [done|]. rewrite string_app_cons. cbn.
  by rewrite IH.
Qed.


Lemma prefix_length (a k : string) :
  String.prefix a k = true → (String.length a ≤ String.length k)%nat.
Proof.
  revert k. induction a as [|x a IH]; intros k; [cbn; lia|].
  destruct k as [|y k]; [done|]. cbn.
  destruct (ascii_dec x y); [|done]. intros Hp%IH. lia.
Qed.



(** ** What [FieldList.process] builds *)

Lemma sorted_le_NoDup_lt (l : list Z) :
  StronglySorted Z.le l → NoDup l → StronglySorted Z.lt l.
Proof.
  induction 1 as [|x l Hs IH Hall]; intros Hnd; [constructor|].
  apply NoDup_cons in Hnd as [Hx Hnd]. constructor; [by apply IH|].
  apply Forall_forall. intros y Hy.
  rewrite Forall_forall in Hall. specialize (Hall y Hy).
  assert (x ≠ y) by (intros ->; done). lia.
Qed.

Lemma sorted_set_spec (l : list Z) :
  StronglySorted Z.lt (FieldList.sorted_set l)
  ∧ ∀ x, x ∈ FieldList.sorted_set l ↔ x ∈ l.
Proof.
  unfold FieldList.sorted_set.
  assert (∀ x, x ∈ merge_sort Z.le (remove_dups l) ↔ x ∈ l) as Hin.
  { intros x. rewrite <- (elem_of_remove_dups l x).
    apply elem_of_Permutation_proper, merge_sort_Permutation. }
  split; [|done].
  assert (NoDup (merge_sort Z.le (remove_dups l))) as Hnd.
  { apply (NoDup_Permutation_proper _ _
             (merge_sort_Permutation Z.le (remove_dups l))),
      NoDup_remove_dups. }
  apply sorted_le_NoDup_lt; [|done].
  apply (StronglySorted_merge_sort Z.le).
Qed.

Section Built.
Context {F : Type} `{FieldLike F}.
Implicit Types (cf : FieldList.config F) (s : FieldList.state F).

Lemma assigned_length last (reqs : list request) :
  length (assigned last reqs) = length reqs.
Proof.
  revert last. induction reqs as [|[d i] reqs IH]; intros last; [done|].
  cbn. by rewrite IH.
Qed.

Lemma assigned_indexed last indices idata :
  assigned last (indexed_requests indices idata) = indices.
Proof.
  revert last idata. induction indices as [|i indices IH]; intros last idata;
    [done|].
  cbn. by rewrite IH.
Qed.

Lemma indexed_requests_length indices idata :
  length (indexed_requests indices idata) = length indices.
Proof.
  revert idata. induction indices as [|i indices IH]; intros idata; [done|].
  cbn. by rewrite IH.
Qed.

Lemma assigned_blank last n :
  assigned last (blank_requests n) = seqZ (last + 1) (Z.of_nat n).
Proof.
  revert last. induction n as [|n IH]; intros last; [done|].
  cbn [blank_requests replicate assigned from_option].
  unfold blank_requests in IH. rewrite IH.
  rewrite (seqZ_cons (last + 1)) by lia.
  f_equal. f_equal; lia.
Qed.

Lemma assigned_each last items :
  assigned last (each_requests items)
  = seqZ (last + 1) (Z.of_nat (length items)).
Proof.
  revert last. induction items as [|d items IH]; intros last; [done|].
  cbn [each_requests map assigned from_option length].
  unfold each_requests in IH. rewrite IH.
  rewrite (seqZ_cons (last + 1)) by lia.
  f_equal. f_equal; lia.
Qed.

Lemma created_name cf fd i d f :
  entries_named cf → created cf fd i d f → field_name f = entry_name cf i.
Proof.
  intros [Hbind Hproc] (f0 & Hb & Hp). apply Hbind in Hb.
  specialize (Hproc fd d f0). rewrite Hp in Hproc. cbn in Hproc.
  by rewrite Hproc, Hb.
Qed.

Lemma created_names cf fd (ids : list (Z * value)) fs :
  entries_named cf →
  Forall2 (λ p f, created cf fd p.1 p.2 f) ids fs →
  map field_name fs = map (entry_name cf) (ids.*1).
Proof.
  intros Hn. induction 1 as [|[i d] f ids fs Hc _ IH]; [done|].
  cbn. by rewrite IH, (created_name _ _ _ _ _ Hn Hc).
Qed.

Lemma run_requests_length cf fd reqs s s' :
  run_requests cf fd reqs s = (s', Ok tt) →
  length (FieldList.entries s')
  = (length (FieldList.entries s) + length reqs)%nat.
Proof.
  intros (fs & -> & Hall & _)%run_requests_inv.
  apply Forall2_length in Hall.
  rewrite length_zip_with, assigned_length, length_fmap, Nat.min_id in Hall.
  rewrite length_app. f_equal. symmetry. exact Hall.
Qed.

(** C4, amended. For every FieldList, when [process] completes,
    [len(entries) <= max_entries] if [max_entries] is set to a positive
    number ([None] and 0 both mean no bound), and
    [len(entries) >= min_entries]. A list with [min_entries = 3], the empty
    default, room for three entries, [last_index = -1], no submission and no
    data, whose enclosed fields can be bound and processed, completes with
    exactly three entries, built blank at the indices 0, 1 and 2. *)
Theorem process_bounds_the_number_of_entries :
  (∀ cf fd d s s',
      FieldList.process cf fd d [] s = (s', Ok tt) →
      (∀ m, FieldList.max_entries cf = Some m → 0 < m →
            Z.of_nat (length (FieldList.entries s')) ≤ m)
      ∧ FieldList.min_entries cf ≤ Z.of_nat (length (FieldList.entries s')))
  ∧ (∀ cf s,
      entries_never_fail cf →
      FieldList.min_entries cf = 3 →
      FieldList.default cf = VTuple [] →
      room_for cf 3 →
      FieldList.last_index s = -1 →
      ∃ s', FieldList.process cf None VUnset [] s = (s', Ok tt)
            ∧ Forall2 (λ i f, created cf None i VUnset f) [0; 1; 2]
                (FieldList.entries s')).
Proof.
  split.
  - intros cf fd d s s' Hp. rewrite process_requests in Hp.
    destruct (list_resolved _ d) as [d'|e]; [|done]. cbn zeta in Hp.
    destruct (iterate d') as [items|e]; [|done].
    destruct (run_requests cf fd (main_requests cf fd items) _)
      as [s1 [[]|e]] eqn:Hmain; [|done].
    pose proof (run_requests_length _ _ _ _ _ Hmain) as Hlen1.
    pose proof (run_requests_length _ _ _ _ _ Hp) as Hlen2.
    apply run_requests_inv in Hmain as (_ & _ & _ & _ & _ & _ & Hroom1).
    apply run_requests_inv in Hp as (_ & _ & _ & _ & _ & _ & Hroom2).
    unfold blank_requests in Hlen2, Hroom2. rewrite length_replicate in Hlen2.
    cbn [FieldList.entries FieldList.set_object_data FieldList.set_entries
         length] in Hlen1.
    split; [|lia]. intros m Hm Hpos.
    assert (FieldList.max_entries_set cf = true) as Hset.
    { unfold FieldList.max_entries_set. rewrite Hm.
      apply negb_true_iff, Z.eqb_neq. lia. }
    unfold room_for in Hroom1, Hroom2. rewrite Hm in Hroom1, Hroom2.
    cbn in Hroom1, Hroom2.
    destruct (Z.to_nat (FieldList.min_entries cf
                        - Z.of_nat (length (FieldList.entries s1))))
      as [|k] eqn:Hk.
    + rewrite Hlen2, Nat.add_0_r.
      destruct (main_requests cf fd items) as [|r reqs] eqn:Hreqs.
      * rewrite Hlen1. cbn. lia.
      * by apply Hroom1.
    + by apply Hroom2.
  - intros cf s Hnf Hmin Hdflt Hroom Hlast. rewrite process_requests.
    assert (list_resolved (FieldList.default cf) VUnset = Ok (VTuple []))
      as -> by (by rewrite Hdflt).
    cbn. rewrite Hmin. change (Z.to_nat (3 - Z.of_nat 0)) with 3%nat.
    set (s0 := FieldList.set_object_data _ _).
    destruct (run_requests_total cf None (blank_requests 3) s0 Hnf)
      as [s' Hrun]; [done|].
    exists s'. split; [done|].
    apply run_requests_inv in Hrun as (fs & Hent & Hall & _).
    rewrite Hent. cbn [FieldList.entries FieldList.set_object_data
                       FieldList.set_entries app s0].
    replace (FieldList.last_index s0) with (-1) in Hall by done.
    cbn in Hall. clear -Hall.
    repeat (inversion Hall as [|? ? ? ? ? Hall']; subst; clear Hall;
            rename Hall' into Hall; constructor; [done|]).
    inversion Hall. constructor.
Qed.

End Built.

Lemma StronglySorted_take {A} (R : relation A) n l :
  StronglySorted R l → StronglySorted R (take n l).
Proof.
  intros Hs. revert n. induction Hs as [|x l Hs IH Hall]; intros [|n];
    cbn; try constructor; [apply IH|].
  by apply Forall_take.
Qed.

Section Submitted.
Context {F : Type} `{FieldLike F}.
Implicit Types (cf : FieldList.config F) (s : FieldList.state F).



End Submitted.

(** ** [last_index] *)

Section LastIndex.
Context {F : Type} `{FieldLike F}.
Implicit Types (cf : FieldList.config F) (s : FieldList.state F).

Lemma assigned_unindexed last (reqs : list request) :
  Forall (λ r, r.2 = None) reqs →
  assigned last reqs = seqZ (last + 1) (Z.of_nat (length reqs)).
Proof.
  intros Hall. revert last.
  induction Hall as [|[d i] reqs Hi _ IH]; intros last; [done|].
  cbn in Hi. subst i. cbn [assigned from_option length]. rewrite IH.
  rewrite (seqZ_cons (last + 1)) by lia. f_equal. f_equal; lia.
Qed.

Lemma run_unindexed_last_index cf fd reqs s s' :
  Forall (λ r, r.2 = None) reqs →
  run_requests cf fd reqs s = (s', Ok tt) →
  FieldList.last_index s'
  = FieldList.last_index s + Z.of_nat (length reqs).
Proof.
  intros Hall. revert s.
  induction Hall as [|[d i] reqs Hi _ IH]; intros s Hrun.
  - cbn in Hrun. unfold ret in Hrun. simplify_eq. cbn. lia.
  - cbn in Hi. subst i. cbn [run_requests] in Hrun. unfold bind in Hrun.
    destruct (FieldList._add_entry cf fd d None s) as [s1 [f|e]] eqn:Hadd;
      [|done].
    apply add_entry_inv in Hadd as (Hlast & _). cbn in Hlast.
    rewrite (IH _ Hrun), Hlast. cbn [length]. lia.
Qed.

Lemma run_requests_app cf fd reqs1 reqs2 s :
  run_requests cf fd (reqs1 ++ reqs2) s
  = match run_requests cf fd reqs1 s with
    | (s1, Ok _) => run_requests cf fd reqs2 s1
    | (s1, Raise e) => (s1, Raise e)
    end.
Proof.
  revert s. induction reqs1 as [|[d i] reqs1 IH]; intros s; [done|].
  cbn [app run_requests]. unfold bind.
  destruct (FieldList._add_entry cf fd d i s) as [s1 [f|e]]; [|done].
  apply IH.
Qed.

(** Without a submission, the entries that [process] builds get the indices
    that follow [last_index]. *)
Lemma process_without_submission cf fd d s s' :
  FieldList.formdata_truthy fd = false →
  FieldList.process cf fd d [] s = (s', Ok tt) →
  ∃ ds, Forall2 (λ p f, created cf fd p.1 p.2 f)
          (zip (seqZ (FieldList.last_index s + 1) (Z.of_nat (length ds))) ds)
          (FieldList.entries s')
        ∧ FieldList.last_index s'
          = FieldList.last_index s + Z.of_nat (length ds).
Proof.
  intros Hfd Hp. rewrite process_requests in Hp.
  destruct (list_resolved _ d) as [d'|e]; [|done]. cbn zeta in Hp.
  destruct (iterate d') as [items|e]; [|done].
  unfold main_requests in Hp. rewrite Hfd in Hp.
  set (s0 := FieldList.set_object_data d' (FieldList.set_entries [] s)) in Hp.
  destruct (run_requests cf fd (each_requests items) s0)
    as [s1 [[]|e]] eqn:Hmain; [|done].
  set (k := Z.to_nat _) in Hp.
  assert (Forall (λ r : request, r.2 = None) (each_requests items)) as Hu1
    by (unfold each_requests; by apply Forall_fmap, Forall_true).
  assert (Forall (λ r : request, r.2 = None) (blank_requests k)) as Hu2
    by (by apply Forall_replicate).
  pose proof (run_unindexed_last_index _ _ _ _ _ Hu1 Hmain) as Hl1.
  pose proof (run_unindexed_last_index _ _ _ _ _ Hu2 Hp) as Hl2.
  apply run_requests_inv in Hmain as (fs1 & Hent1 & Hall1 & _).
  apply run_requests_inv in Hp as (fs2 & Hent2 & Hall2 & _).
  rewrite assigned_unindexed in Hall1, Hall2 by done.
  unfold each_requests, blank_requests in *.
  rewrite length_fmap in *. rewrite length_replicate in *.
  rewrite <- list_fmap_compose in Hall1. cbn in Hall1, Hl1, Hent1.
  rewrite list_fmap_id in Hall1. rewrite fmap_replicate in Hall2.
  cbn [fst] in Hall2.
  exists (items ++ replicate k VUnset).
  rewrite length_app, length_replicate, Nat2Z.inj_add.
  split; [|lia].
  rewrite seqZ_app by lia. rewrite zip_with_app by (by rewrite length_seqZ, Nat2Z.id).
  rewrite Hent2, Hent1. apply Forall2_app; [done|].
  assert (FieldList.last_index s + Z.of_nat (length items) + 1
          = FieldList.last_index s + 1 + Z.of_nat (length items)) as Heq by lia.
  rewrite Hl1, Heq in Hall2. exact Hall2.
Qed.

End LastIndex.

Section LastIndexOperations.
Context {F : Type} `{FieldLike F}.
Implicit Types (cf : FieldList.config F) (s : FieldList.state F).

Lemma append_entry_inv cf d s s' f :
  FieldList.append_entry cf d s = (s', Ok f) →
  FieldList.last_index s' = FieldList.last_index s + 1
  ∧ FieldList.entries s' = FieldList.entries s ++ [f]
  ∧ created cf None (FieldList.last_index s + 1) d f.
Proof.
  intros (Hl & He & _ & _ & Hc & _)%add_entry_inv. by cbn in Hl, Hc.
Qed.

Lemma pop_entry_inv s s' f :
  FieldList.pop_entry s = (s', Ok f) →
  FieldList.last_index s' = FieldList.last_index s - 1
  ∧ FieldList.entries s = FieldList.entries s' ++ [f].
Proof.
  unfold FieldList.pop_entry. mrun.
  destruct (last (FieldList.entries s)) as [e|] eqn:Hlast; cbn; [|done].
  intros ?; simplify_eq. cbn. split; [done|].
  apply last_Some in Hlast as [l' ->]. by rewrite removelast_last.
Qed.

Lemma growing_ops_raise_last_index cf ops s s' :
  Forall grows ops →
  run_ops cf ops s = (s', Ok tt) →
  FieldList.last_index s ≤ FieldList.last_index s'.
Proof.
  intros Hall. revert s.
  induction Hall as [|o ops Ho _ IH]; intros s Hrun.
  - cbn in Hrun. unfold ret in Hrun. by simplify_eq.
  - cbn [run_ops] in Hrun. unfold bind in Hrun.
    destruct (run_op cf o s) as [s1 [[]|e]] eqn:Hop; [|done].
    apply IH in Hrun. etrans; [|exact Hrun].
    destruct o as [fd d|d|]; cbn in Ho, Hop; [| |done].
    + destruct (process_without_submission _ _ _ _ _ Ho Hop) as (ds & _ & ->).
      lia.
    + unfold bind in Hop.
      destruct (FieldList.append_entry cf d s) as [s2 [f|e]] eqn:Happ;
        [|done].
      unfold ret in Hop. simplify_eq.
      apply append_entry_inv in Happ as (-> & _). lia.
Qed.

(** C6, amended. [last_index] is the index of the entry built last, less one
    for each [pop_entry] since. [append_entry] builds its entry at
    [last_index + 1] and adds one to [last_index]; [pop_entry] removes the
    last entry and subtracts one from [last_index]; [process] without
    submission builds its entries at the indices that follow [last_index]
    and adds their number to it. So over operations that neither pop nor
    take indices from a submission [last_index] never decreases and every
    new index is above it. *)
Theorem last_index_follows_the_entries cf s :
  (∀ d s' f,
      FieldList.append_entry cf d s = (s', Ok f) →
      FieldList.last_index s' = FieldList.last_index s + 1
      ∧ FieldList.entries s' = FieldList.entries s ++ [f]
      ∧ created cf None (FieldList.last_index s + 1) d f)
  ∧ (∀ s' f,
      FieldList.pop_entry s = (s', Ok f) →
      FieldList.last_index s' = FieldList.last_index s - 1
      ∧ FieldList.entries s = FieldList.entries s' ++ [f])
  ∧ (∀ fd d s',
      FieldList.formdata_truthy fd = false →
      FieldList.process cf fd d [] s = (s', Ok tt) →
      ∃ ds, Forall2 (λ p f, created cf fd p.1 p.2 f)
              (zip (seqZ (FieldList.last_index s + 1) (Z.of_nat (length ds)))
                 ds)
              (FieldList.entries s')
            ∧ FieldList.last_index s'
              = FieldList.last_index s + Z.of_nat (length ds))
  ∧ (∀ ops s',
      Forall grows ops →
      run_ops cf ops s = (s', Ok tt) →
      FieldList.last_index s ≤ FieldList.last_index s').
Proof.
  split; [intros; by apply append_entry_inv|].
  split; [intros; by apply pop_entry_inv|].
  split; [intros; by eapply process_without_submission|].
  intros; by eapply growing_ops_raise_last_index.
Qed.

End LastIndexOperations.

(** ** The [validate] of the composite fields *)

Section FieldListValidate.
Context {F : Type} `{FieldLike F}.
Implicit Types (cf : FieldList.config F) (s : FieldList.state F).



End FieldListValidate.


(** ** [FormField.populate_obj] *)

Lemma form_field_process_inv {Fm} `{FormLike Fm} (cf : FormField.config Fm)
    h fd d xf (s s' : FormField.state Fm) :
  FormField.process cf h fd d xf s = (s', Ok tt) →
  ∃ d', resolved (FormField.default cf) d = Ok d'
        ∧ FormField.object_data s' = d'
        ∧ FormField._obj s' = match d with
                              | VUnset => d'
                              | _ => FormField._obj s
                              end
        ∧ is_Some (FormField.form s').
Proof.
  unfold FormField.process, resolved, Field.resolve_default.
  destruct xf; [|done].
  destruct d; mrun.
  all: repeat (break_match; cbn in *; simplify_eq).
  all: intros ?; simplify_eq; cbn; eexists; repeat split; eauto.
Qed.

(** C7, amended. [FormField.populate_obj] populates the attribute of the
    target when it is there and not [None]; else the value kept in [_obj],
    which is what the default resolved to when [process] was last called
    without object value (object data given to [process] is not kept there);
    and raises a type error when both are [None]. It has the enclosed form
    populate that object and assigns it to the attribute of the target. So,
    with an enclosed form whose one field "name" holds "Bob", the object
    found by that rule ends with [name = "Bob"] and is the value of the
    target's attribute. *)
Theorem populate_obj_prefers_attribute_then_default :
  (∀ Fm (FL : FormLike Fm) (s : FormField.state Fm) f obj attr h,
      FormField.form s = Some f →
      FormField.populate_obj s obj attr h
      = match getattr_or_none h obj attr, FormField._obj s with
        | VNone, VNone =>
            (h, Raise (Exn TypeError [VStr "populate_obj: cannot find a value to populate from the provided obj or input data/defaults"]))
        | VNone, o => (form_populate_obj f o ;;; setattr obj attr o) h
        | c, _ => (form_populate_obj f c ;;; setattr obj attr c) h
        end)
  ∧ (∀ Fm (FL : FormLike Fm) (cf : FormField.config Fm) h fd d xf s s',
      FormField.process cf h fd d xf s = (s', Ok tt) →
      ∃ d', resolved (FormField.default cf) d = Ok d'
            ∧ FormField.object_data s' = d'
            ∧ FormField._obj s' = match d with
                                  | VUnset => d'
                                  | _ => FormField._obj s
                                  end
            ∧ is_Some (FormField.form s'))
  ∧ (∀ (s : FormField.state Form.t) f fld target c attr h,
      FormField.form s = Some f →
      Form.fields f = [("name", fld)] →
      Field.data (Field.st fld) = VStr "Bob" →
      getattr_or_none h (VRef target) attr = VRef c
      ∨ (getattr_or_none h (VRef target) attr = VNone
         ∧ FormField._obj s = VRef c) →
      c ≠ target →
      ∃ h', FormField.populate_obj s (VRef target) attr h = (h', Ok tt)
            ∧ getattr_or_none h' (VRef target) attr = VRef c
            ∧ getattr_or_none h' (VRef c) "name" = VStr "Bob").
Proof.
  split.
  { intros Fm FL s f obj attr h Hf. unfold FormField.populate_obj,
      FormField.get_form. rewrite Hf. unfold bind at 1 2, get at 1.
    destruct (getattr_or_none h obj attr); try reflexivity.
    by destruct (FormField._obj s). }
  split; [intros; by eapply form_field_process_inv|].
  intros s f fld target c attr h Hf Hfields Hdata Hcand Hne.
  assert (FormField.populate_obj s (VRef target) attr h
          = (form_populate_obj f (VRef c) ;;; setattr (VRef target) attr (VRef c)) h)
    as ->.
  { unfold FormField.populate_obj, FormField.get_form. rewrite Hf.
    unfold bind at 1 2, get at 1.
    destruct Hcand as [-> | [-> ->]]; reflexivity. }
  cbn. unfold Form.populate_obj. rewrite Hfields. cbn.
  unfold Field.populate_obj. rewrite Hdata. mrun.
  eexists. split; [reflexivity|]. split.
  - by rewrite lookup_insert_eq; cbn; rewrite lookup_insert_eq.
  - rewrite lookup_insert_ne by done. rewrite lookup_insert_eq. cbn.
    by rewrite lookup_insert_eq.
Qed.

(** ** Lists of scalar fields *)

Lemma bound_entries_named (cf : FieldList.config Field.t) c kw :
  FieldList.unbound_field cf = Bound.unbound c kw → entries_named cf.
Proof.
  intros Hub. split.
  - intros n p i g f. rewrite Hub. unfold Bound.unbound, Bound.__init__.
    destruct (Field.check_validators _); [|done]. by intros [= <-].
  - intros fd d [c' cf' st]. unfold field_process, field_name; cbn.
    by match goal with
       | |- context [let '(_, _) := ?x in _] => destruct x
       end.
Qed.

Lemma string_entries_never_fail min max :
  entries_never_fail (Example.string_list min max).
Proof.
  intros n p i g. eexists. split; [reflexivity|].
  intros fd d. cbn.
  destruct d, fd as [fd|]; cbn; try reflexivity.
  all: unfold Field.process, Field.process_object_data,
         Field.process_submission, Field.process_filters; mrun.
  all: by destruct (fd !! _) as [[|v vs]|].
Qed.





(** A key that continues the list's name with another character than the
    separator yields an index all the same. *)
Lemma extract_indices_skips_any_character :
  FieldList.sorted_set
    (FieldList._extract_indices "x" (Example.submission ["xa3"; "x_4"]))
  = [3; 4]
  ∧ Spec.extract_indices "x" (Example.submission ["xa3"; "x_4"]) = [].
Proof. vm_compute. done. Qed.

Lemma process_bounds_the_number_of_entries_witness :
  let cf := Example.string_list 3 None in
  ∃ s', FieldList.process cf None VUnset [] FieldList.init = (s', Ok tt)
        ∧ map field_name (FieldList.entries s') = ["x-0"; "x-1"; "x-2"]
        ∧ 3 ≤ Z.of_nat (length (FieldList.entries s')).
Proof.
  intros cf.
  destruct (proj2 process_bounds_the_number_of_entries cf FieldList.init)
    as (s' & Hp & Hall).
  - apply string_entries_never_fail.
  - reflexivity.
  - reflexivity.
  - intros [=].
  - reflexivity.
  - exists s'. split; [exact Hp|]. split.
    + apply (created_names (F := Field.t) cf None
               [(0, VUnset); (1, VUnset); (2, VUnset)]).
      * by eapply bound_entries_named.
      * clear -Hall.
        repeat (inversion Hall as [|? ? ? ? ? Hall']; subst; clear Hall;
                rename Hall' into Hall; constructor; [done|]).
        inversion Hall. constructor.
    + by apply (proj1 process_bounds_the_number_of_entries cf None VUnset
                  FieldList.init s' Hp).
Defined.

(** C4 fails as stated: with [max_entries = 0] and [min_entries = 0],
    processing the object data ["a"] without submission completes with one
    entry, more than [max_entries]. *)
Lemma zero_max_entries_bounds_nothing :
  let cf := Example.string_list 0 (Some 0) in
  let r := FieldList.process cf None (VList [VStr "a"]) [] FieldList.init in
  r.2 = Ok tt
  ∧ FieldList.max_entries cf = Some 0
  ∧ FieldList.min_entries cf ≤ 0
  ∧ length (FieldList.entries r.1) = 1%nat.
Proof. vm_compute. repeat split; done. Qed.

Lemma last_index_follows_the_entries_witness :
  let cf := Example.string_list 0 None in
  ∃ s' f, FieldList.append_entry cf (VStr "a") FieldList.init = (s', Ok f)
          ∧ FieldList.last_index s' = 0
          ∧ FieldList.entries s' = [f].
Proof.
  intros cf.
  destruct (FieldList.append_entry cf (VStr "a") FieldList.init)
    as [s' [f|e]] eqn:Happ; [|by vm_compute in Happ].
  exists s', f. split; [reflexivity|].
  destruct (proj1 (last_index_follows_the_entries cf FieldList.init)
              (VStr "a") s' f Happ) as (Hl & He & _).
  by split.
Defined.

(** C6 fails as stated: after [append_entry], [pop_entry], [append_entry]
    the index 0 is assigned a second time, and [last_index] went from 0 down
    to -1 in between. *)
Lemma popped_index_is_assigned_again :
  let cf := Example.string_list 0 None in
  let r1 := FieldList.append_entry cf (VStr "a") FieldList.init in
  let r2 := FieldList.pop_entry r1.1 in
  let r3 := FieldList.append_entry cf (VStr "b") r2.1 in
  field_name <$> returned r1.2 = Some "x-0"
  ∧ field_name <$> returned r2.2 = Some "x-0"
  ∧ field_name <$> returned r3.2 = Some "x-0"
  ∧ (λ f, Field.data (Field.st f)) <$> returned r1.2 = Some (VStr "a")
  ∧ (λ f, Field.data (Field.st f)) <$> returned r3.2 = Some (VStr "b")
  ∧ FieldList.last_index r1.1 = 0
  ∧ FieldList.last_index r2.1 = -1
  ∧ FieldList.last_index r3.1 = 0.
Proof. vm_compute. repeat split; done. Qed.

(** ** The examples of the specification *)

Lemma validation_chain_halts_on_StopValidation_witness :
  let stop := raising Field.state StopValidation [VStr "stop"] in
  let cf := Example.scalar "f" VNone [stop; Example.recording_validator] [] in
  Field.validate Field.Field cf VNone [Example.recording_validator]
    (∅, Example.fresh)
  = ((∅, Field.State VNone None [VStr "stop"] [] VNone), Ok false).
Proof.
  intros stop cf.
  exact (proj2 (proj2 validation_chain_halts_on_StopValidation)
           Field.Field cf VNone Example.recording_validator
           [Example.recording_validator] ∅ Example.fresh
           eq_refl eq_refl eq_refl eq_refl).
Defined.



Lemma populate_obj_prefers_attribute_then_default_witness :
  let cf := Example.nested (VFun "make" (VRef 3%positive)) in
  let fd : formdata := {["nested-name" := ["Bob"]]} in
  let s := (FormField.process cf ∅ (Some fd) VUnset [] FormField.init).1 in
  ∃ h', FormField.populate_obj s (VRef 1%positive) "nested" ∅ = (h', Ok tt)
        ∧ getattr_or_none h' (VRef 1%positive) "nested" = VRef 3%positive
        ∧ getattr_or_none h' (VRef 3%positive) "name" = VStr "Bob".
Proof.
  intros cf fd s.
  eapply (proj2 (proj2 populate_obj_prefers_attribute_then_default)).
  - vm_compute. reflexivity.
  - reflexivity.
  - reflexivity.
  - right. split; reflexivity.
  - done.
Defined.

(** C7 fails as stated: after [process] was given an object as object data,
    [populate_obj] on a target without the attribute raises the type error
    although the object data is there; and with no object data and no
    default it raises too: no object is created. *)
Lemma supplied_object_data_is_no_fallback :
  let fd : formdata := {["nested-name" := ["Bob"]]} in
  let missing :=
    Raise (Exn TypeError [VStr "populate_obj: cannot find a value to populate from the provided obj or input data/defaults"]) in
  (let r := FormField.process (Example.nested VNone) ∅ (Some fd) (VRef 5%positive) []
              FormField.init in
   r.2 = Ok tt
   ∧ FormField.object_data r.1 = VRef 5%positive
   ∧ Spec.populate_candidate r.1 ∅ (VRef 1%positive) "nested" = Ok (VRef 5%positive)
   ∧ FormField.populate_obj r.1 (VRef 1%positive) "nested" ∅ = (∅, missing))
  ∧ (let r := FormField.process (Example.nested VNone) ∅ (Some fd) VUnset []
                FormField.init in
     r.2 = Ok tt
     ∧ FormField.populate_obj r.1 (VRef 1%positive) "nested" ∅ = (∅, missing)).
Proof. vm_compute. repeat split; done. Qed.

(** ** More on [Field.validate] *)

Lemma check_validators_instances {S} (vs : list (validator_obj S)) :
  all_instances vs = true → Field.check_validators vs = Ok tt.
Proof.
  induction vs as [|[run|construct|v] vs IH]; cbn; try done. 
Qed.

Lemma check_validators_rejects {S} (vs : list (validator_obj S)) :
  all_instances vs = false →
  ∃ m, Field.check_validators vs = Raise (Exn TypeError [VStr m]).
Proof.
  induction vs as [|[run|construct|v] vs IH]; cbn; try done; eauto.
Qed.

(** X1. [Field.validate] checks the extra validators before it runs
    anything: when one of them is a class or is not callable, it raises
    TypeError, whatever the class of the field. By then [errors] has been
    reset to the process errors, and nothing else has happened: neither
    [pre_validate] nor any validator ran, the heap is as it was. *)
Theorem validate_rejects_bad_extra_validators c cf form extra h s :
  all_instances extra = false →
  ∃ m, Field.validate c cf form extra (h, s)
       = ((h, set_errors (Field.process_errors s) s),
          Raise (Exn TypeError [VStr m])).
Proof.
  intros Hbad. destruct (check_validators_rejects extra Hbad) as [m Hm].
  exists m. unfold Field.validate, Field.validate_with.
  unfold bind at 1 2. unfold modify at 1. unfold lift at 1. by rewrite Hm.
Qed.

Lemma validate_rejects_bad_extra_validators_witness :
  ∃ m, Field.validate StringField.StringField
         (Example.scalar "s" VNone [Example.recording_validator] [])
         VNone [AClass (λ _, ret tt)] (∅, Example.fresh)
       = ((∅, Example.fresh), Raise (Exn TypeError [VStr m])).
Proof.
  exact (validate_rejects_bad_extra_validators StringField.StringField
           (Example.scalar "s" VNone [Example.recording_validator] [])
           VNone [AClass (λ _, ret tt)] ∅ Example.fresh eq_refl).
Defined.

Lemma judging_chain form (vs : list verdict) h (s : Field.state) :
  ∃ stopped,
    Field._run_validation_chain form (map (judge Field.state) vs) (h, s)
    = ((h, set_errors (Field.errors s ++ messages vs) s), Ok stopped).
Proof.
  revert s. induction vs as [|[|m|args] vs IH]; intros s.
  - exists false. cbn. rewrite app_nil_r. by destruct s.
  - destruct (IH s) as [b Hb]. exists b.
    cbn [map messages]. erewrite chain_cons_ok by reflexivity. exact Hb.
  - destruct (IH (set_errors (Field.errors s ++ [m]) s)) as [b Hb]. exists b.
    cbn [map]. erewrite chain_cons_error by reflexivity.
    unfold after_error. cbn -[Field._run_validation_chain] in Hb |- *.
    rewrite Hb. by rewrite <- app_assoc.
  - exists true. cbn [map]. erewrite chain_cons_stop by reflexivity.
    unfold after_stop. cbn [messages].
    destruct args as [|m args]; cbn.
    + rewrite app_nil_r. by destruct s.
    + destruct (truthy m); cbn; [done|]. rewrite app_nil_r. by destruct s.
Qed.

(** X2. For a field with the hooks of [Field] whose validators and extra
    validators keep no state (each returns, raises ValidationError with a
    message, or raises StopValidation), [validate] never raises and leaves
    in [errors] the process errors followed by the messages of the
    validators, own ones first, up to the first stop. It returns true
    exactly when that list is empty: a field with a process error does not
    validate, whatever its validators. *)
Theorem validate_with_judging_validators c cf form own extra h s :
  Field.pre_validate c = Field.base_pre_validate →
  Field.post_validate c = Field.base_post_validate →
  Field.validators cf = map (judge Field.state) own →
  let errs := Field.process_errors s ++ messages (own ++ extra) in
  Field.validate c cf form (map (judge Field.state) extra) (h, s)
  = ((h, set_errors errs s), Ok (bool_decide (length errs = 0%nat)))
  ∧ (Field.process_errors s ≠ [] →
     (Field.validate c cf form (map (judge Field.state) extra) (h, s)).2
     = Ok false).
Proof.
  intros Hpre Hpost Hown errs.
  assert (Field.validate c cf form (map (judge Field.state) extra) (h, s)
          = ((h, set_errors errs s), Ok (bool_decide (length errs = 0%nat))))
    as Heq.
  { unfold Field.validate, Field.validate_with.
    rewrite Hpre, Hpost, Hown, <- map_app.
    rewrite check_validators_instances
      by (unfold all_instances; induction extra; cbn; auto).
    destruct (judging_chain form (own ++ extra) h
                (set_errors (Field.process_errors s) s)) as [b Hb].
    cbn in Hb. mrun. rewrite Hb. cbn. done. }
  split; [exact Heq|]. intros Hne. rewrite Heq. cbn. f_equal.
  apply bool_decide_eq_false. unfold errs. rewrite length_app.
  destruct (Field.process_errors s); [done|]. cbn. lia.
Qed.

Lemma validate_with_judging_validators_witness :
  Field.validate IntegerField.IntegerField
    (Example.scalar "n" VNone
       [judge _ Passes; judge _ (Fails (VStr "too small"))] [])
    VNone [judge _ (Stops [VStr "stop"]); judge _ (Fails (VStr "unseen"))]
    (∅, Field.State VNone (Some ["x"]) [] [VStr "Not a valid integer value."]
          VNone)
  = ((∅, Field.State VNone (Some ["x"])
           [VStr "Not a valid integer value."; VStr "too small"; VStr "stop"]
           [VStr "Not a valid integer value."] VNone),
     Ok false).
Proof.
  exact (proj1 (validate_with_judging_validators IntegerField.IntegerField
           (Example.scalar "n" VNone
              [judge _ Passes; judge _ (Fails (VStr "too small"))] [])
           VNone [Passes; Fails (VStr "too small")]
           [Stops [VStr "stop"]; Fails (VStr "unseen")] ∅
           (Field.State VNone (Some ["x"]) []
              [VStr "Not a valid integer value."] VNone)
           eq_refl eq_refl eq_refl)).
Defined.

(** ** More on [Field.process] *)

Lemma set_data_data s : Field.set_data (Field.data s) s = s.
Proof. by destruct s. Qed.

Lemma run_filters_apply fs s :
  Field.run_filters fs s
  = (Field.set_data (apply_filters fs (Field.data s)).1 s,
     match (apply_filters fs (Field.data s)).2 with
     | None => Ok tt
     | Some e => Raise e
     end).
Proof.
  revert s. induction fs as [|f fs IH]; intros s.
  - cbn. by rewrite set_data_data.
  - cbn [Field.run_filters apply_filters]. mrun.
    destruct (f (Field.data s)) as [v|e]; cbn.
    + rewrite IH. by destruct s.
    + by rewrite set_data_data.
Qed.

(** X3. The filters of the field, then the extra filters, are applied to
    [data] in order, each to the result of the one before. When all return,
    [data] is the last result. The first filter that raises ends the chain
    and [data] keeps the result of the filters before it: a ValueError is
    caught and its first argument is appended to [process_errors], any other
    exception leaves [process]. *)
Theorem filters_run_until_one_raises cf xf s :
  let all := Field.filters cf ++ xf in
  let s' := Field.set_data (apply_filters all (Field.data s)).1 s in
  ((apply_filters all (Field.data s)).2 = None →
   Field.process_filters cf xf s = (s', Ok tt))
  ∧ (∀ e m args,
       (apply_filters all (Field.data s)).2 = Some e →
       exn_isa e ValueError = true → exn_args e = m :: args →
       Field.process_filters cf xf s
       = (Field.set_process_errors (Field.process_errors s ++ [m]) s', Ok tt))
  ∧ (∀ e,
       (apply_filters all (Field.data s)).2 = Some e →
       exn_isa e ValueError = false →
       Field.process_filters cf xf s = (s', Raise e)).
Proof.
  intros all s'. unfold Field.process_filters, try_except.
  fold all. rewrite run_filters_apply. fold s'.
  split; [by intros ->|]. split.
  - intros e m args -> Hisa Hargs. cbn. rewrite Hisa. cbn.
    unfold Field.record_process_error, args0. rewrite Hargs. mrun.
    by destruct s.
  - intros e -> Hisa. cbn. by rewrite Hisa.
Qed.

Lemma filters_run_until_one_raises_witness :
  let boom : filter_fn := λ _, Raise (Exn ValueError [VStr "boom"]) in
  Field.process_filters (Example.scalar "s" VNone [] [Example.negate; boom])
    [Example.negate] (Field.State (VStr "x") None [] [] VNone)
  = (Field.State (VBool false) None [] [VStr "boom"] VNone, Ok tt).
Proof.
  intros boom.
  exact (proj1 (proj2 (filters_run_until_one_raises
           (Example.scalar "s" VNone [] [Example.negate; boom])
           [Example.negate] (Field.State (VStr "x") None [] [] VNone)))
           (Exn ValueError [VStr "boom"]) (VStr "boom") []
           eq_refl eq_refl eq_refl).
Defined.
(** ** Scalar fields, step by step *)

(** X4. A string field without filters whose object value resolves always
    processes normally and without process error: [data] is the first raw
    value when the submission has one under the field's name, else the
    object value, untouched; [raw_data] is the list under the name (empty
    when the name is absent) and keeps its old value when no submission is
    given. *)
Theorem string_field_data cf fd d d' s :
  Field.filters cf = [] →
  resolved (Field.default cf) d = Ok d' →
  Field.process StringField.StringField cf fd d [] s
  = (Field.State
       match fd ≫= (.!! Field.name cf) with
       | Some (v :: _) => VStr v
       | _ => d'
       end
       match fd with
       | Some m => Some (from_option (λ vs, vs) [] (m !! Field.name cf))
       | None => Field.raw_data s
       end
       (Field.errors s) [] d',
     Ok tt).
Proof.
  intros Hf Hd. rewrite (process_resolved _ _ _ _ _ _ _ Hd).
  rewrite process_filters_nil by done.
  unfold Field.process_object_data, Field.process_submission. mrun.
  destruct fd as [m|]; cbn; [|done].
  by destruct (m !! Field.name cf) as [[|v vs]|].
Qed.

Lemma string_field_data_witness :
  Field.process StringField.StringField (Example.scalar "s" (VStr "dflt") [] [])
    (Some {["other" := ["v"]]}) VUnset [] Example.fresh
  = (Field.State (VStr "dflt") (Some []) [] [] (VStr "dflt"), Ok tt).
Proof.
  exact (string_field_data (Example.scalar "s" (VStr "dflt") [] [])
           (Some {["other" := ["v"]]}) VUnset (VStr "dflt") Example.fresh
           eq_refl eq_refl).
Defined.

Section MoreScalar.
Context `{Builtins}.

(** X5. An integer field without filters that is given an object value
    which [int] rejects (with ValueError or TypeError) records the message of
    the class and goes on: without submission it ends with [data = None];
    with a submission whose first raw value is an integer, [data] is that
    integer, and the process error of the object value is still there, so
    that the field will not validate. *)
Theorem integer_field_bad_object_data cf d d' e s :
  Field.filters cf = [] →
  resolved (Field.default cf) d = Ok d' →
  d' ≠ VNone → d' ≠ VUnset →
  py_int d' = Raise e →
  exn_isa e ValueError || exn_isa e TypeError = true →
  let msg := VStr (Field.gettext cf IntegerField.message) in
  Field.process IntegerField.IntegerField cf None d [] s
  = (Field.State VNone (Field.raw_data s) (Field.errors s) [msg] d', Ok tt)
  ∧ ∀ fd v rest n,
      fd !! Field.name cf = Some (v :: rest) →
      py_int (VStr v) = Ok n →
      Field.process IntegerField.IntegerField cf (Some fd) d [] s
      = (Field.State n (Some (v :: rest)) (Field.errors s) [msg] d', Ok tt).
Proof.
  intros Hf Hd Hnone Hunset Hint Hcaught msg.
  assert (Field.process_object_data IntegerField.IntegerField cf d'
            (Field.set_process_errors [] s)
          = (Field.State VNone (Field.raw_data s) (Field.errors s) [msg] d',
             Ok tt)) as Hobj.
  { unfold Field.process_object_data. cbn [Field.process_data IntegerField.IntegerField].
    unfold IntegerField.process_data, IntegerField.reject.
    destruct d'; try done; mrun; rewrite Hint; cbn.
    all: assert (exn_isa e ValueError || (exn_isa e TypeError || false) = true)
           as -> by (by rewrite orb_false_r).
    all: reflexivity. }
  split.
  - rewrite (process_resolved _ _ _ _ _ _ _ Hd).
    rewrite process_filters_nil by done.
    unfold bind at 1 2. rewrite Hobj. reflexivity.
  - intros fd v rest n Hkey Hn.
    rewrite (process_resolved _ _ _ _ _ _ _ Hd).
    rewrite process_filters_nil by done.
    unfold bind at 1 2. rewrite Hobj. rewrite process_submission_eq, Hkey.
    cbn. unfold IntegerField.process_formdata. mrun. rewrite Hn. reflexivity.
Qed.

Lemma process_raw_data c cf fd d d' xf s :
  scalar_class c →
  resolved (Field.default cf) d = Ok d' →
  let out := Field.process c cf fd d xf s in
  Field.errors out.1 = Field.errors s
  ∧ Field.object_data out.1 = d'
  ∧ (out.2 = Ok tt →
     Field.raw_data out.1
     = match fd with
       | Some m => Some (from_option (λ vs, vs) [] (m !! Field.name cf))
       | None => Field.raw_data s
       end).
Proof.
  intros Hc Hd out. subst out.
  remember (Field.process c cf fd d xf s) as out eqn:Hout.
  rewrite (process_resolved _ _ _ _ _ _ _ Hd) in Hout.
  unfold Field.process_object_data in Hout.
  set (s0 := Field.set_object_data d' (Field.set_process_errors [] s)) in *.
  pose proof (scalar_process_data_frame c cf d' s0 Hc) as (Hr1 & He1 & Ho1).
  assert (Field.raw_data s0 = Field.raw_data s ∧ Field.errors s0 = Field.errors s
          ∧ Field.object_data s0 = d') as (Hr0 & He0 & Ho0) by done.
  unfold bind at 1 2 in Hout. unfold modify at 1 in Hout. fold s0 in Hout.
  destruct (try_except (Field.process_data c cf d') _ s0) as [s1 [[]|e]];
    cbn [fst snd] in *; [|subst out; cbn [fst snd]; split; [congruence|split; [congruence|done]]].
  unfold bind in Hout.
  destruct fd as [m|].
  - rewrite process_submission_eq in Hout.
    set (raw := from_option (λ vs, vs) [] (m !! Field.name cf)) in *.
    pose proof (scalar_process_formdata_frame c cf raw
                  (Field.set_raw_data raw s1) Hc) as (Hr2 & He2 & Ho2).
    cbn [Field.set_raw_data Field.raw_data Field.errors Field.object_data]
      in Hr2, He2, Ho2.
    destruct (try_except (Field.process_formdata c cf raw) _ _)
      as [s2 [[]|e]]; cbn [fst snd] in *; subst out; cbn [fst snd].
    + pose proof (process_filters_frame cf xf s2) as (Hr3 & He3 & Ho3).
      split; [congruence|]. split; [congruence|]. intros _. congruence.
    + split; [congruence|]. split; [congruence|]. done.
  - cbn [Field.process_submission] in Hout. unfold ret in Hout. subst out. cbn [fst snd].
    pose proof (process_filters_frame cf xf s1) as (Hr3 & He3 & Ho3).
    split; [congruence|]. split; [congruence|]. intros _. congruence.
Qed.

(** X6. For every scalar class and whatever the filters do, [process]
    leaves [errors] alone (only [validate] resets it) and keeps the resolved
    object value in [object_data]: neither the coercions nor the filters
    change them, also when [process] raises. When [process] returns and a
    submission was given, [raw_data] is the list of raw values under the
    field's name, empty when the name is absent. *)
Theorem process_keeps_errors_and_inputs c cf fd d d' xf s :
  scalar_class c →
  resolved (Field.default cf) d = Ok d' →
  let out := Field.process c cf fd d xf s in
  Field.errors out.1 = Field.errors s
  ∧ Field.object_data out.1 = d'
  ∧ (out.2 = Ok tt →
     Field.raw_data out.1
     = match fd with
       | Some m => Some (from_option (λ vs, vs) [] (m !! Field.name cf))
       | None => Field.raw_data s
       end).
Proof. apply process_raw_data. Qed.

End MoreScalar.

Lemma integer_field_bad_object_data_witness :
  Field.process IntegerField.IntegerField (Example.scalar "n" VNone [] [])
    (Some {["n" := ["12"]]}) (VStr "abc") [] Example.fresh
  = (Field.State (VInt 12) (Some ["12"]) [] [VStr "Not a valid integer value."]
       (VStr "abc"),
     Ok tt).
Proof.
  exact (proj2 (integer_field_bad_object_data (Example.scalar "n" VNone [] [])
           (VStr "abc") (VStr "abc")
           (Exn ValueError [VStr "invalid literal for int() with base 10"])
           Example.fresh eq_refl eq_refl ltac:(discriminate) ltac:(discriminate)
           eq_refl eq_refl)
           {["n" := ["12"]]} "12" [] (VInt 12) eq_refl eq_refl).
Defined.

Lemma process_keeps_errors_and_inputs_witness :
  let out := Field.process BooleanField.BooleanField
               (Example.scalar "b" VNone [] [Example.negate])
               (Some {["b" := ["false"]]}) VUnset []
               (Field.State VNone None [VStr "old"] [] VNone) in
  Field.errors out.1 = [VStr "old"]
  ∧ Field.object_data out.1 = VNone
  ∧ (out.2 = Ok tt → Field.raw_data out.1 = Some ["false"]).
Proof.
  exact (process_keeps_errors_and_inputs BooleanField.BooleanField
           (Example.scalar "b" VNone [] [Example.negate])
           (Some {["b" := ["false"]]}) VUnset VNone []
           (Field.State VNone None [VStr "old"] [] VNone)
           sc_BooleanField eq_refl).
Defined.

(** ** The text of a processed field *)

Section Echo.
Context `{Builtins} `{Rendering}.

(** X7. What the user typed is what the field shows: after an integer, a
    float or a Boolean field processed a submission with at least one value
    under its name, [_value] is the first raw value, as it was submitted,
    also when the conversion rejected it and whatever the object value and
    the filters made of [data]. *)
Theorem value_echoes_the_raw_text c _value cf fd d d' xf s v rest :
  echoing_class c _value →
  resolved (Field.default cf) d = Ok d' →
  fd !! Field.name cf = Some (v :: rest) →
  let out := Field.process c cf (Some fd) d xf s in
  out.2 = Ok tt →
  _value out.1 = Ok v.
Proof.
  intros Hc Hd Hkey out Hout.
  assert (scalar_class c) as Hsc by (destruct Hc; constructor).
  pose proof (process_raw_data c cf (Some fd) d d' xf s Hsc Hd) as Hp.
  cbv zeta in Hp. fold out in Hp. destruct Hp as (_ & _ & Hraw).
  specialize (Hraw Hout). rewrite Hkey in Hraw. cbn [from_option] in Hraw.
  destruct Hc; unfold IntegerField_value, FloatField_value, BooleanField_value;
    by rewrite Hraw.
Qed.

End Echo.

Lemma value_echoes_the_raw_text_witness :
  let out := Field.process IntegerField.IntegerField
               (Example.scalar "n" VNone [] [])
               (Some {["n" := ["12a"]]}) (VInt 7) [] Example.fresh in
  IntegerField_value out.1 = Ok "12a".
Proof.
  exact (value_echoes_the_raw_text IntegerField.IntegerField _
           (Example.scalar "n" VNone [] []) {["n" := ["12a"]]} (VInt 7) (VInt 7)
           [] Example.fresh "12a" [] ec_Integer eq_refl eq_refl eq_refl).
Defined.
(** ** Appending and popping entries *)

Section AppendPop.
Context {F : Type} `{FieldLike F}.
Implicit Types (cf : FieldList.config F) (s : FieldList.state F).

Lemma add_entry_full cf fd d index s m :
  FieldList.max_entries cf = Some m → m ≠ 0 →
  m ≤ Z.of_nat (length (FieldList.entries s)) →
  FieldList._add_entry cf fd d index s
  = (s, Raise (Exn AssertionError
       [VStr "You cannot have more than max_entries entries in this FieldList"])).
Proof.
  intros Hm Hm0 Hfull. unfold FieldList._add_entry, FieldList.max_entries_set.
  rewrite Hm. cbn [from_option]. mrun.
  assert ((m =? 0) = false) as -> by lia. cbn.
  rewrite bool_decide_eq_false_2 by lia. reflexivity.
Qed.

(** X8. [pop_entry] undoes [append_entry]: after an entry has been
    appended, popping returns that very entry and leaves the list as it was
    before, [last_index] included. On a list without entries [pop_entry]
    raises IndexError and changes nothing: [last_index] is not decreased. *)
Theorem pop_entry_undoes_append_entry cf d s :
  (∀ s1 f, FieldList.append_entry cf d s = (s1, Ok f) →
           FieldList.pop_entry s1 = (s, Ok f))
  ∧ (FieldList.entries s = [] →
     FieldList.pop_entry s
     = (s, Raise (Exn IndexError [VStr "pop from empty list"]))).
Proof.
  split.
  - intros s1 f (Hl & He & Herr & Hobj & _)%add_entry_inv.
    cbn in Hl. unfold FieldList.pop_entry. mrun. rewrite He, last_snoc. cbn.
    rewrite removelast_last. f_equal.
    destruct s as [es errs li od], s1 as [es1 errs1 li1 od1]. cbn in *.
    subst. unfold FieldList.set_last_index, FieldList.set_entries. cbn.
    f_equal. lia.
  - intros Hnil. unfold FieldList.pop_entry. mrun. by rewrite Hnil.
Qed.


(** X10. Object data is not cut to [max_entries]: when [process] runs
    without submission (none, or an empty one) on object data with more
    items than a positive [max_entries], it builds [max_entries] entries and
    then raises AssertionError. *)
Theorem process_raises_on_too_much_object_data cf fd d d' items m s :
  entries_never_fail cf →
  FieldList.formdata_truthy fd = false →
  list_resolved (FieldList.default cf) d = Ok d' →
  iterate d' = Ok items →
  FieldList.max_entries cf = Some m →
  0 < m < Z.of_nat (length items) →
  ∃ s', FieldList.process cf fd d [] s
        = (s', Raise (Exn AssertionError
             [VStr "You cannot have more than max_entries entries in this FieldList"]))
        ∧ Z.of_nat (length (FieldList.entries s')) = m.
Proof.
  intros Hnf Hfd Hres Hit Hm Hlen.
  rewrite process_requests, Hres. cbn zeta. rewrite Hit.
  unfold main_requests. rewrite Hfd.
  set (s0 := FieldList.set_object_data d' (FieldList.set_entries [] s)).
  rewrite <- (take_drop (Z.to_nat m) items).
  unfold each_requests. rewrite fmap_app. rewrite run_requests_app.
  destruct (run_requests_total cf fd
              ((λ d0, (d0, None)) <$> take (Z.to_nat m) items) s0 Hnf)
    as [s1 Hmain].
  { intros _. rewrite Hm. cbn. rewrite length_fmap, length_take. lia. }
  rewrite Hmain.
  apply run_requests_length in Hmain.
  rewrite length_fmap, length_take in Hmain. cbn in Hmain.
  destruct (drop (Z.to_nat m) items) as [|x rest] eqn:Hdrop.
  { apply (f_equal length) in Hdrop. rewrite length_drop in Hdrop.
    cbn in Hdrop. lia. }
  cbn [fmap list_fmap run_requests]. unfold bind.
  rewrite (add_entry_full cf fd x None s1 m) by (done || lia).
  exists s1. split; [done|]. lia.
Qed.

End AppendPop.

Lemma pop_entry_undoes_append_entry_witness :
  let out := FieldList.append_entry (Example.string_list 0 None) (VStr "a")
               FieldList.init in
  ∃ f, out.2 = Ok f ∧ FieldList.pop_entry out.1 = (FieldList.init, Ok f).
Proof.
  intros out. eexists. split; [vm_compute; reflexivity|].
  apply (proj1 (pop_entry_undoes_append_entry (Example.string_list 0 None)
                  (VStr "a") FieldList.init)).
  vm_compute. reflexivity.
Defined.


Lemma process_raises_on_too_much_object_data_witness :
  ∃ s', FieldList.process (Example.string_list 0 (Some 1)) None
          (VList [VStr "a"; VStr "b"]) [] FieldList.init
        = (s', Raise (Exn AssertionError
             [VStr "You cannot have more than max_entries entries in this FieldList"]))
        ∧ Z.of_nat (length (FieldList.entries s')) = 1.
Proof.
  exact (process_raises_on_too_much_object_data
           (Example.string_list 0 (Some 1)) None (VList [VStr "a"; VStr "b"])
           (VList [VStr "a"; VStr "b"]) [VStr "a"; VStr "b"] 1 FieldList.init
           (string_entries_never_fail 0 (Some 1)) eq_refl eq_refl eq_refl
           eq_refl ltac:(cbn; lia)).
Defined.
(** ** [FieldList.validate] entry by entry *)

Section ValidateEntries.
Context {F : Type} `{FieldLike F}.
Implicit Types (cf : FieldList.config F) (s : FieldList.state F).





End ValidateEntries.

(** ** Indices and names of the entries *)

Lemma string_app_inj_l (a x y : string) : a +:+ x = a +:+ y → x = y.
Proof.
  induction a as [|c a IH]; [done|]. rewrite !string_app_cons.
  intros [= Heq]. by apply IH.
Qed.

Lemma entry_name_inj {F} (cf : FieldList.config F) i j :
  entry_name cf i = entry_name cf j → i = j.
Proof.
  unfold entry_name. intros Heq.
  do 3 apply string_app_inj_l in Heq. by apply (inj pretty) in Heq.
Qed.

Lemma StronglySorted_seqZ m n : StronglySorted Z.lt (seqZ m (Z.of_nat n)).
Proof.
  revert m. induction n as [|n IH]; intros m; [constructor|].
  rewrite seqZ_cons by lia. constructor.
  - replace (Z.pred (Z.of_nat (S n))) with (Z.of_nat n) by lia. apply IH.
  - apply Forall_forall. intros x Hx%elem_of_seqZ. lia.
Qed.

Lemma StronglySorted_lt_last (l : list Z) d x :
  StronglySorted Z.lt l → x ∈ l → x ≤ List.last l d.
Proof.
  intros Hs. revert d x. induction Hs as [|y l Hs IH Hall]; intros d x Hx.
  - by apply elem_of_nil in Hx.
  - rewrite last_cons_default. apply elem_of_cons in Hx as [->|Hx]; [|by apply IH].
    destruct l as [|z l]; [done|].
    apply Forall_cons in Hall as [Hz _].
    assert (z ≤ List.last (z :: l) y) by (apply IH, elem_of_cons; by left).
    lia.
Qed.

Section Distinct.
Context {F : Type} `{FieldLike F}.
Implicit Types (cf : FieldList.config F) (s : FieldList.state F).

Lemma slice_to_sorted m (l : list Z) :
  StronglySorted Z.lt l → StronglySorted Z.lt (FieldList.slice_to m l).
Proof.
  intros Hs. unfold FieldList.slice_to.
  destruct (0 <=? m); by apply StronglySorted_take.
Qed.

Lemma submitted_indices_sorted cf (m : formdata) :
  StronglySorted Z.lt (submitted_indices cf m).
Proof.
  unfold submitted_indices.
  destruct (FieldList.max_entries_set cf);
    [apply slice_to_sorted|]; apply sorted_set_spec.
Qed.

(** The indices that one call of [process] assigns increase strictly. *)
Lemma process_indices_increase cf fd d s s' :
  FieldList.process cf fd d [] s = (s', Ok tt) →
  ∃ ids : list (Z * value),
    Forall2 (λ p f, created cf fd p.1 p.2 f) ids (FieldList.entries s')
    ∧ StronglySorted Z.lt (ids.*1).
Proof.
  intros Hp. rewrite process_requests in Hp.
  destruct (list_resolved _ d) as [d'|e]; [|done]. cbn zeta in Hp.
  destruct (iterate d') as [items|e]; [|done].
  set (s0 := FieldList.set_object_data d' (FieldList.set_entries [] s)) in Hp.
  destruct (run_requests cf fd (main_requests cf fd items) s0)
    as [s1 [[]|e]] eqn:Hmain; [|done].
  set (k := Z.to_nat _) in Hp.
  assert (StronglySorted Z.lt
            (assigned (FieldList.last_index s0) (main_requests cf fd items)))
    as Hsorted1.
  { unfold main_requests. destruct (FieldList.formdata_truthy fd).
    - rewrite assigned_indexed. apply submitted_indices_sorted.
    - rewrite assigned_each. apply StronglySorted_seqZ. }
  apply run_requests_inv in Hmain as (fs1 & Hent1 & Hall1 & Hlast1 & _).
  apply run_requests_inv in Hp as (fs2 & Hent2 & Hall2 & _).
  rewrite assigned_blank in Hall2. cbn in Hent1.
  exists (zip (assigned (FieldList.last_index s0) (main_requests cf fd items))
              ((main_requests cf fd items).*1)
          ++ zip (seqZ (FieldList.last_index s1 + 1) (Z.of_nat k))
                 ((blank_requests k).*1)).
  split.
  { rewrite Hent2, Hent1. by apply Forall2_app. }
  rewrite fmap_app, !fst_zip.
  2: { unfold blank_requests.
       rewrite length_fmap, length_replicate, length_seqZ. lia. }
  2: { by rewrite length_fmap, assigned_length. }
  apply StronglySorted_app_2; [|done|apply StronglySorted_seqZ].
  intros x1 x2 Hx1 Hx2%elem_of_seqZ.
  pose proof (StronglySorted_lt_last _ (FieldList.last_index s0) _
                Hsorted1 Hx1) as Hle.
  rewrite <- Hlast1 in Hle. lia.
Qed.

(** X12. One call of [process] never builds two entries of the same name:
    whenever it returns, the indices of the entries, in order, increase
    strictly (the submitted ones are sorted and without duplicates, and the
    entries added to reach [min_entries] count on from the last one), so the
    names [name-index] are pairwise distinct. *)
Theorem process_builds_distinct_names cf fd d s s' :
  entries_named cf →
  FieldList.process cf fd d [] s = (s', Ok tt) →
  ∃ indices,
    StronglySorted Z.lt indices
    ∧ map field_name (FieldList.entries s') = map (entry_name cf) indices
    ∧ NoDup (map field_name (FieldList.entries s')).
Proof.
  intros Hnamed (ids & Hall & Hsorted)%process_indices_increase.
  exists (ids.*1). split; [done|].
  pose proof (created_names _ _ _ _ Hnamed Hall) as Hnames.
  split; [done|]. rewrite Hnames.
  apply (NoDup_fmap_2_strong (entry_name cf)).
  - intros i j _ _. apply entry_name_inj.
  - clear -Hsorted. induction Hsorted as [|x l Hs IH Hall]; constructor; [|done].
    intros Hx. rewrite Forall_forall in Hall. specialize (Hall x Hx). lia.
Qed.

End Distinct.

Lemma process_builds_distinct_names_witness :
  let s' := (FieldList.process (Example.string_list 3 None)
               (Some (Example.submission ["x-4"; "x-1-a"; "x-1-b"])) VUnset []
               FieldList.init).1 in
  ∃ indices,
    StronglySorted Z.lt indices
    ∧ map field_name (FieldList.entries s') = map (entry_name (Example.string_list 3 None)) indices
    ∧ NoDup (map field_name (FieldList.entries s')).
Proof.
  intros s'.
  apply (process_builds_distinct_names (Example.string_list 3 None)
           (Some (Example.submission ["x-4"; "x-1-a"; "x-1-b"])) VUnset
           FieldList.init s').
  - by apply (bound_entries_named _ StringField.StringField Bound.no_kwargs).
  - vm_compute. reflexivity.
Defined.
(** ** Keys and indices, back and forth *)

Lemma int_of_digits_from_nonneg acc s : 0 ≤ acc → all_digits s = true → 0 ≤ int_of_digits_from acc s.
Proof.
  revert acc. induction s as [|c s IH]; intros acc Hacc Hd; [done|].
  cbn in Hd |- *. apply andb_true_iff in Hd as [Hc Hs]. apply IH; [|done].
  unfold is_digit in Hc. apply andb_true_iff in Hc as [Hlo _].
  apply Nat.leb_le in Hlo. lia.
Qed.

(** X13. Every index that [_extract_indices] yields is a natural number,
    and it is read in a key of the submission that starts with the prefix:
    it is the number written by the digits between the character after the
    prefix and the next ["-"] (or the end of the key). *)
Theorem extracted_indices_come_from_keys prefix (fd : formdata) i :
  i ∈ FieldList._extract_indices prefix fd →
  0 ≤ i
  ∧ ∃ k, is_Some (fd !! k)
         ∧ String.prefix prefix k = true
         ∧ let digits :=
             first_segment (string_drop (S (String.length prefix)) k) in
           isdigit digits = true ∧ i = int_of_digits digits.
Proof.
  unfold FieldList._extract_indices.
  intros (k & Hk & Hi)%list_elem_of_omap.
  apply list_elem_of_fmap in Hk as ([k' vs] & -> & Hk).
  apply elem_of_map_to_list in Hk. cbn [fst] in Hi.
  destruct (String.prefix prefix k') eqn:Hp; [|done].
  destruct (isdigit _) eqn:Hd; [|done]. simplify_eq.
  split.
  - apply int_of_digits_from_nonneg; [done|].
    unfold isdigit in Hd. by destruct (first_segment _).
  - exists k'. by repeat split.
Qed.

Lemma extracted_indices_come_from_keys_witness :
  0 ≤ 12
  ∧ ∃ k, is_Some (Example.submission ["x-12-name"; "y-3"] !! k)
         ∧ String.prefix "x" k = true
         ∧ let digits := first_segment (string_drop 2 k) in
           isdigit digits = true ∧ 12 = int_of_digits digits.
Proof.
  apply (extracted_indices_come_from_keys "x"
           (Example.submission ["x-12-name"; "y-3"]) 12).
  vm_compute. apply list_elem_of_here.
Defined.

Lemma prefix_app_self (a b : string) : String.prefix a (a +:+ b) = true.
Proof.
  induction a as [|c a IH]; [by destruct b|]. rewrite string_app_cons. cbn.
  by destruct (ascii_dec c c).
Qed.

Lemma string_drop_app (a b : string) :
  string_drop (String.length a) (a +:+ b) = b.
Proof. induction a as [|c a IH]; [done|]. by rewrite string_app_cons. Qed.

Lemma all_digits_app (a b : string) :
  all_digits (a +:+ b) = all_digits a && all_digits b.
Proof.
  induction a as [|c a IH]; [done|]. rewrite string_app_cons. cbn.
  by rewrite IH, andb_assoc.
Qed.

Lemma int_of_digits_from_app acc (a b : string) :
  int_of_digits_from acc (a +:+ b)
  = int_of_digits_from (int_of_digits_from acc a) b.
Proof.
  revert acc. induction a as [|c a IH]; intros acc; [done|].
  rewrite string_app_cons. cbn. by rewrite IH.
Qed.

Lemma pretty_N_char_digit (r : N) :
  (r < 10)%N →
  is_digit (pretty_N_char r) = true
  ∧ Z.of_nat (nat_of_ascii (pretty_N_char r)) - 48 = Z.of_N r.
Proof.
  intros Hr.
  assert (r = 0 ∨ r = 1 ∨ r = 2 ∨ r = 3 ∨ r = 4 ∨ r = 5 ∨ r = 6 ∨ r = 7
          ∨ r = 8 ∨ r = 9)%N as Hcases by lia.
  repeat (destruct Hcases as [->|Hcases]; [by vm_compute|]).
  subst r. by vm_compute.
Qed.

Lemma pretty_N_go_app (x : N) (s : string) :
  pretty_N_go x s = pretty_N_go x EmptyString +:+ s.
Proof.
  revert s. induction (N.lt_wf_0 x) as [x _ IH]; intros s.
  assert (x = 0 ∨ 0 < x)%N as [->|Hx] by lia; [done|].
  rewrite !(pretty_N_go_step x) by done.
  rewrite IH by (by apply N.div_lt).
  rewrite (IH (x `div` 10)%N (N.div_lt x 10 Hx eq_refl) (String _ EmptyString)).
  by rewrite string_app_assoc.
Qed.

Lemma pretty_N_go_digits (x : N) :
  all_digits (pretty_N_go x EmptyString) = true
  ∧ int_of_digits (pretty_N_go x EmptyString) = Z.of_N x.
Proof.
  induction (N.lt_wf_0 x) as [x _ IH].
  assert (x = 0 ∨ 0 < x)%N as [->|Hx] by lia; [done|].
  rewrite pretty_N_go_step, pretty_N_go_app by done.
  destruct (IH (x `div` 10)%N (N.div_lt x 10 Hx eq_refl)) as [Hd Hi].
  destruct (pretty_N_char_digit (x `mod` 10)) as [Hc Hv];
    [by apply N.mod_lt|].
  unfold int_of_digits in *. rewrite all_digits_app, int_of_digits_from_app.
  rewrite Hd, Hi. cbn [all_digits int_of_digits_from]. rewrite Hc.
  split; [done|]. rewrite Hv.
  rewrite (N.div_mod x 10) at 3 by done. lia.
Qed.

Lemma pretty_digits (i : Z) :
  0 ≤ i →
  isdigit (pretty i) = true ∧ all_digits (pretty i) = true
  ∧ int_of_digits (pretty i) = i.
Proof.
  intros Hi. destruct i as [|p|p]; [done| |lia].
  unfold pretty, pretty_Z, pretty, pretty_positive, pretty, pretty_N.
  rewrite decide_False by done.
  destruct (pretty_N_go_digits (N.pos p)) as [Hd Hv].
  repeat split; [|done|done].
  unfold isdigit. destruct (pretty_N_go (N.pos p) EmptyString) eqn:Hs; [|done].
  cbn in Hv. lia.
Qed.

Lemma first_segment_digits (a rest : string) :
  all_digits a = true →
  rest = EmptyString ∨ (∃ r, rest = String "-" r) →
  first_segment (a +:+ rest) = a.
Proof.
  intros Ha Hrest. induction a as [|c a IH].
  - destruct Hrest as [->|[r ->]]; [done|]. by cbn.
  - rewrite string_app_cons. cbn in Ha |- *.
    apply andb_true_iff in Ha as [Hc Ha].
    destruct (Ascii.eqb c "-") eqn:Heq.
    + apply Ascii.eqb_eq in Heq. subst c. by vm_compute in Hc.
    + by rewrite IH.
Qed.

(** X14. The names that [_add_entry] gives are read back: for a natural
    number [i], a key of the submission made of the list's name, ["-"], the
    decimal text of [i] and then nothing or a suffix that starts with ["-"]
    (the key of entry [i], or of a field inside it) makes
    [_extract_indices] yield [i]. *)
Theorem entry_keys_yield_their_index name (fd : formdata) i rest :
  0 ≤ i →
  rest = EmptyString ∨ (∃ r, rest = String "-" r) →
  is_Some (fd !! (name +:+ "-" +:+ pretty i +:+ rest)) →
  i ∈ FieldList._extract_indices name fd.
Proof.
  intros Hi Hrest [vs Hk]. unfold FieldList._extract_indices.
  apply list_elem_of_omap. exists (name +:+ "-" +:+ pretty i +:+ rest).
  split.
  { apply list_elem_of_fmap. exists (name +:+ "-" +:+ pretty i +:+ rest, vs).
    split; [done|]. by apply elem_of_map_to_list. }
  rewrite prefix_app_self.
  destruct (pretty_digits i Hi) as (Hd & Ha & Hv).
  change (S (String.length name)) with (1 + String.length name)%nat.
  replace (1 + String.length name)%nat
    with (String.length (name +:+ "-")).
  2: { rewrite string_length_app. cbn. lia. }
  rewrite <- (string_app_assoc name "-"), string_drop_app.
  rewrite first_segment_digits by done. by rewrite Hd, Hv.
Qed.

Lemma entry_keys_yield_their_index_witness :
  207 ∈ FieldList._extract_indices "authors"
          (Example.submission ["authors-207-name"; "title"]).
Proof.
  apply (entry_keys_yield_their_index "authors"
           (Example.submission ["authors-207-name"; "title"]) 207 "-name").
  - lia.
  - right. by eexists.
  - vm_compute. by eexists.
Defined.
(** ** Select fields *)

Section Select.
Context `{Equality}.

Lemma find_match_options o data items opts :
  SelectField.options_of o data items = Ok opts →
  SelectField.find_match o data items = Ok (existsb snd opts).
Proof.
  revert opts. induction items as [|item items IH]; intros opts Hopts.
  - cbn in Hopts. by simplify_eq.
  - cbn in Hopts |- *.
    destruct (SelectField.option_of o data item) as [[[v l] b]|e]; [|done].
    destruct (SelectField.options_of o data items) as [ts|e]; [|done].
    simplify_eq. cbn. destruct b; [done|]. by apply IH.
Qed.

(** X15. A select field whose [choices] is [None] cannot be validated:
    [validate] raises TypeError from [pre_validate], before any validator
    runs, whatever [data] is and also when [validate_choice] is false. *)
Theorem select_field_without_choices o cf form extra h s :
  SelectField.choices o = None →
  Field.check_validators extra = Ok tt →
  Field.validate (SelectField.SelectField o) cf form extra (h, s)
  = ((h, set_errors (Field.process_errors s) s),
     Raise (Exn TypeError [VStr (Field.gettext cf "Choices cannot be None.")])).
Proof.
  intros Hnone Hextra. unfold Field.validate, Field.validate_with.
  rewrite Hextra. cbn [Field.pre_validate SelectField.SelectField].
  unfold SelectField.pre_validate. rewrite Hnone. reflexivity.
Qed.

Lemma select_pre_validate o cf form cs opts h s :
  SelectField.choices o = Some cs →
  SelectField.validate_choice o = true →
  SelectField.iter_choices o s = Ok opts →
  SelectField.pre_validate o cf form (h, s)
  = ((h, s),
     if existsb snd opts then Ok tt
     else Raise (Exn ValidationError
            [VStr (Field.gettext cf "Not a valid choice.")])).
Proof.
  intros Hcs Hvc Hopts. unfold SelectField.pre_validate.
  rewrite Hcs, Hvc. cbn [negb]. mrun.
  rewrite (find_match_options _ _ _ _ Hopts). cbn.
  by destruct (existsb snd opts).
Qed.

Lemma guarded_hook_ok {S} `{HasErrors S} (m : M (heap * S) unit) hs hs' :
  m hs = (hs', Ok tt) →
  try_except (m ;;; ret false)
    [ ([StopValidation], λ e, Field.append_message_if_any e ;;; ret true);
      ([ValidationError], λ e, Field.append_message e ;;; ret false) ] hs
  = (hs', Ok false).
Proof. intros Hm. unfold try_except, bind. by rewrite Hm. Qed.

Lemma guarded_hook_error {S} `{HasErrors S} (m : M (heap * S) unit)
    hs hs' msg args :
  m hs = (hs', Raise (Exn ValidationError (msg :: args))) →
  try_except (m ;;; ret false)
    [ ([StopValidation], λ e, Field.append_message_if_any e ;;; ret true);
      ([ValidationError], λ e, Field.append_message e ;;; ret false) ] hs
  = (after_error msg hs', Ok false).
Proof. intros Hm. unfold try_except, bind. by rewrite Hm. Qed.

(** X16. Validation agrees with rendering, and a wrong choice does not stop
    the validators. For a select field that validates its choice, whose
    options [iter_choices] can all be produced, and whose validators keep no
    state: [validate] leaves in [errors] the process errors, then "Not a
    valid choice." unless one of the options is marked as selected, then the
    messages of the validators, own ones first, up to the first stop; and it
    returns true exactly when that list is empty. *)
Theorem select_field_validates_the_selected_option
    o cf form cs opts own extra h s :
  SelectField.choices o = Some cs →
  SelectField.validate_choice o = true →
  SelectField.iter_choices o s = Ok opts →
  Field.validators cf = map (judge Field.state) own →
  let errs :=
    Field.process_errors s
    ++ (if existsb snd opts then []
        else [VStr (Field.gettext cf "Not a valid choice.")])
    ++ messages (own ++ extra) in
  Field.validate (SelectField.SelectField o) cf form
    (map (judge Field.state) extra) (h, s)
  = ((h, set_errors errs s), Ok (bool_decide (length errs = 0%nat))).
Proof.
  intros Hcs Hvc Hopts Hown errs.
  assert (SelectField.iter_choices o (set_errors (Field.process_errors s) s)
          = Ok opts) as Hopts' by done.
  pose proof (select_pre_validate o cf form cs opts h _ Hcs Hvc Hopts')
    as Hpre.
  unfold Field.validate, Field.validate_with.
  rewrite Hown, <- map_app.
  rewrite check_validators_instances
    by (unfold all_instances; induction extra; cbn; auto).
  cbn [Field.pre_validate Field.post_validate SelectField.SelectField].
  unfold bind at 1 2 3. unfold modify at 1, lift at 1. cbn [fst snd].
  subst errs. destruct (existsb snd opts).
  - rewrite (guarded_hook_ok _ _ _ Hpre). cbn [negb].
    destruct (judging_chain form (own ++ extra) h
                (set_errors (Field.process_errors s) s)) as [b Hb].
    unfold bind at 1. rewrite Hb. by mrun.
  - rewrite (guarded_hook_error _ _ _ _ _ Hpre). cbn [negb].
    destruct (judging_chain form (own ++ extra) h
                (set_errors (Field.process_errors s
                             ++ [VStr (Field.gettext cf "Not a valid choice.")])
                   s)) as [b Hb].
    unfold bind at 1. unfold after_error.
    cbn -[Field._run_validation_chain] in Hb |- *. rewrite Hb.
    mrun. by rewrite <- app_assoc.
Qed.

(** X17. The choices are tried in order and only as far as the first
    match: when the choices before one that matches [data] can be coerced
    and do not match, [pre_validate] accepts [data], whatever comes after
    the match, also a choice on which [coerce] raises and which makes
    [iter_choices] fail as a whole. *)
Theorem select_field_stops_at_the_first_match o cf form cs before item after h s :
  SelectField.choices o = Some cs →
  SelectField.pairs o = before ++ item :: after →
  SelectField.find_match o (Field.data s) before = Ok false →
  (∃ v l, SelectField.option_of o (Field.data s) item = Ok (v, l, true)) →
  SelectField.pre_validate o cf form (h, s) = ((h, s), Ok tt).
Proof.
  intros Hcs Hpairs Hbefore (v & l & Hitem).
  assert (SelectField.find_match o (Field.data s) (before ++ item :: after)
          = Ok true) as Hfind.
  { clear Hpairs. induction before as [|x before IH]; cbn in *.
    - by rewrite Hitem.
    - destruct (SelectField.option_of o (Field.data s) x) as [[[? ?] []]|];
        try done. by apply IH. }
  unfold SelectField.pre_validate. rewrite Hcs.
  destruct (SelectField.validate_choice o); [|done]. cbn [negb]. mrun.
  by rewrite Hpairs, Hfind.
Qed.

(** X18. A raw value that cannot be coerced does not clear [data]: when a
    select field without filters is given object data that [coerce]
    accepts and a submission whose first raw value makes [coerce] raise
    ValueError, [process] returns normally with the process error "Invalid
    Choice: could not coerce." and [data] is still the coerced object
    data. *)
Theorem select_field_keeps_data_on_bad_input o cf fd d d' c v rest e s :
  Field.filters cf = [] →
  resolved (Field.default cf) d = Ok d' →
  d' ≠ VNone →
  SelectField.coerce o d' = Ok c →
  fd !! Field.name cf = Some (v :: rest) →
  SelectField.coerce o (VStr v) = Raise e →
  exn_isa e ValueError = true →
  Field.process (SelectField.SelectField o) cf (Some fd) d [] s
  = (Field.State c (Some (v :: rest)) (Field.errors s)
       [VStr (Field.gettext cf "Invalid Choice: could not coerce.")] d',
     Ok tt).
Proof.
  intros Hf Hd Hnone Hc Hkey Hv He.
  rewrite (process_resolved _ _ _ _ _ _ _ Hd).
  rewrite process_filters_nil by done.
  unfold bind at 1 2. unfold Field.process_object_data.
  cbn [Field.process_data SelectField.SelectField].
  unfold SelectField.process_data.
  assert (∀ s0, try_except
            match d' with
            | VNone => modify (Field.set_data VNone)
            | _ => c <- lift (SelectField.coerce o d') ;; modify (Field.set_data c)
            end
            [([ValueError; TypeError], λ _, modify (Field.set_data VNone))] s0
          = (Field.set_data c s0, Ok tt)) as Hpd.
  { intros s0. destruct d'; try done; mrun; by rewrite Hc. }
  unfold bind at 1. unfold modify at 1. unfold try_except at 1.
  rewrite Hpd. rewrite process_submission_eq, Hkey.
  cbn. unfold SelectField.process_formdata. mrun. rewrite Hv. cbn.
  rewrite He. reflexivity.
Qed.

(** X19. Object data that cannot be coerced is dropped without a trace:
    when [coerce] raises ValueError or TypeError on the object data of a
    select field without filters, [process] without submission returns
    normally with [data = None] and no process error. *)
Theorem select_field_drops_bad_object_data o cf d d' e s :
  Field.filters cf = [] →
  resolved (Field.default cf) d = Ok d' →
  SelectField.coerce o d' = Raise e →
  exn_isa e ValueError || exn_isa e TypeError = true →
  Field.process (SelectField.SelectField o) cf None d [] s
  = (Field.State VNone (Field.raw_data s) (Field.errors s) [] d', Ok tt).
Proof.
  intros Hf Hd Hc He.
  rewrite (process_resolved _ _ _ _ _ _ _ Hd).
  rewrite process_filters_nil by done.
  unfold Field.process_object_data.
  cbn [Field.process_data SelectField.SelectField].
  unfold SelectField.process_data.
  destruct d'; mrun; rewrite ?Hc; cbn; try reflexivity.
  all: assert (exn_isa e ValueError || (exn_isa e TypeError || false) = true)
         as -> by (by rewrite orb_false_r).
  all: reflexivity.
Qed.

End Select.

Lemma select_field_without_choices_witness :
  Field.validate
    (SelectField.SelectField (SelectField.Options Reference.int None false))
    (Example.scalar "n" VNone [Example.recording_validator] []) VNone []
    (∅, Example.fresh)
  = ((∅, Example.fresh),
     Raise (Exn TypeError [VStr "Choices cannot be None."])).
Proof.
  exact (select_field_without_choices
           (SelectField.Options Reference.int None false)
           (Example.scalar "n" VNone [Example.recording_validator] []) VNone []
           ∅ Example.fresh eq_refl eq_refl).
Defined.

Lemma select_field_validates_the_selected_option_witness :
  Field.validate (SelectField.SelectField ExampleSelect.numbered)
    (Example.scalar "n" VNone [judge _ (Fails (VStr "too big"))] []) VNone
    (map (judge Field.state) [])
    (∅, Field.State (VInt 3) (Some ["3"]) [] [] VNone)
  = ((∅, Field.State (VInt 3) (Some ["3"])
           [VStr "Not a valid choice."; VStr "too big"] [] VNone),
     Ok false).
Proof.
  exact (select_field_validates_the_selected_option ExampleSelect.numbered
           (Example.scalar "n" VNone [judge _ (Fails (VStr "too big"))] [])
           VNone _ _ [Fails (VStr "too big")] [] ∅
           (Field.State (VInt 3) (Some ["3"]) [] [] VNone)
           eq_refl eq_refl eq_refl eq_refl).
Defined.

Lemma select_field_stops_at_the_first_match_witness :
  let s := Field.State (VInt 1) (Some ["1"]) [] [] VNone in
  SelectField.pre_validate ExampleSelect.broken
    (Example.scalar "n" VNone [] []) VNone (∅, s) = ((∅, s), Ok tt)
  ∧ returned (SelectField.iter_choices ExampleSelect.broken s) = None.
Proof.
  intros s. split; [|reflexivity].
  apply (select_field_stops_at_the_first_match ExampleSelect.broken
           (Example.scalar "n" VNone [] []) VNone
           [VTuple [VInt 1; VStr "one"]; VTuple [VStr "x"; VStr "two"]] []
           (VTuple [VInt 1; VStr "one"]) [VTuple [VStr "x"; VStr "two"]] ∅ s).
  - reflexivity.
  - reflexivity.
  - reflexivity.
  - by exists (VInt 1), (VStr "one").
Defined.

Lemma select_field_keeps_data_on_bad_input_witness :
  Field.process (SelectField.SelectField ExampleSelect.numbered)
    (Example.scalar "n" VNone [] []) (Some {["n" := ["two"]]}) (VInt 1) []
    Example.fresh
  = (Field.State (VInt 1) (Some ["two"]) []
       [VStr "Invalid Choice: could not coerce."] (VInt 1),
     Ok tt).
Proof.
  exact (select_field_keeps_data_on_bad_input ExampleSelect.numbered
           (Example.scalar "n" VNone [] []) {["n" := ["two"]]} (VInt 1)
           (VInt 1) (VInt 1) "two" []
           (Exn ValueError [VStr "invalid literal for int() with base 10"])
           Example.fresh eq_refl eq_refl ltac:(discriminate) eq_refl eq_refl
           eq_refl eq_refl).
Defined.

Lemma select_field_drops_bad_object_data_witness :
  Field.process (SelectField.SelectField ExampleSelect.numbered)
    (Example.scalar "n" VNone [] []) None (VStr "two") [] Example.fresh
  = (Field.State VNone None [] [] (VStr "two"), Ok tt).
Proof.
  exact (select_field_drops_bad_object_data ExampleSelect.numbered
           (Example.scalar "n" VNone [] []) (VStr "two") (VStr "two")
           (Exn ValueError [VStr "invalid literal for int() with base 10"])
           Example.fresh eq_refl eq_refl eq_refl eq_refl).
Defined.
(** ** Date and time fields *)

Section Temporal.
Context `{DateTime}.

Lemma temporal_process_formdata c msg parse cf v vs s :
  temporal_class c msg parse →
  Field.process_formdata c cf (v :: vs) s
  = match parse (join_spaces (v :: vs)) with
    | Ok x => (Field.set_data x s, Ok tt)
    | Raise e =>
        if exn_isa e ValueError
        then (Field.set_data VNone s,
              Raise (Exn ValueError [VStr (Field.gettext cf msg)]))
        else (s, Raise e)
    end.
Proof.
  intros []; cbn [Field.process_formdata DateTimeField.DateTimeField
                  DateField.DateField TimeField.TimeField].
  all: unfold DateTimeField.process_formdata, DateField.process_formdata,
         TimeField.process_formdata, IntegerField.reject.
  all: unfold try_except, bind, lift, modify, raise.
  all: destruct (strptime (join_spaces (v :: vs)) format) as [dt|e];
         cbn [select_handler existsb orb].
  all: try (destruct (exn_isa e ValueError); reflexivity).
  all: try reflexivity.
  - destruct (datetime_date dt) as [x|e]; [reflexivity|].
    cbn [select_handler existsb orb].
    destruct (exn_isa e ValueError); reflexivity.
  - destruct (datetime_time dt) as [x|e]; [reflexivity|].
    cbn [select_handler existsb orb].
    destruct (exn_isa e ValueError); reflexivity.
Qed.

(** X20. A date, a time or a date-and-time field parses all the raw values
    under its name at once, joined by single spaces, so that a date and a
    time may come as two values. For such a field without filters whose
    object value resolves: when the joined text is converted, [data] is the
    result and there is no process error; when the conversion raises
    ValueError, [data] is [None], whatever the object value was, and the one
    process error is the message of the class. In both cases [process]
    returns normally and [raw_data] keeps the values as they came. *)
Theorem temporal_fields_parse_the_joined_text
    c msg parse cf fd d d' v vs s :
  temporal_class c msg parse →
  Field.filters cf = [] →
  resolved (Field.default cf) d = Ok d' →
  fd !! Field.name cf = Some (v :: vs) →
  (∀ x, parse (join_spaces (v :: vs)) = Ok x →
        Field.process c cf (Some fd) d [] s
        = (Field.State x (Some (v :: vs)) (Field.errors s) [] d', Ok tt))
  ∧ (∀ e, parse (join_spaces (v :: vs)) = Raise e →
          exn_isa e ValueError = true →
          Field.process c cf (Some fd) d [] s
          = (Field.State VNone (Some (v :: vs)) (Field.errors s)
               [VStr (Field.gettext cf msg)] d',
             Ok tt)).
Proof.
  intros Hc Hf Hd Hkey.
  assert (Field.process c cf (Some fd) d [] s
          = try_except (Field.process_formdata c cf (v :: vs))
              [([ValueError], Field.record_process_error)]
              (Field.State d' (Some (v :: vs)) (Field.errors s) [] d'))
    as Heq.
  { rewrite (process_resolved _ _ _ _ _ _ _ Hd).
    rewrite process_filters_nil by done.
    unfold Field.process_object_data.
    assert (Field.process_data c = Field.base_process_data) as ->
      by (by destruct Hc).
    unfold bind at 1 2 3. unfold modify at 1. unfold try_except at 1.
    unfold Field.base_process_data, modify at 1. cbn [fst snd].
    rewrite process_submission_eq, Hkey. cbn [from_option].
    unfold bind, ret.
    by destruct (try_except _ _ _) as [s1 [[]|e]]. }
  rewrite Heq. unfold try_except.
  rewrite (temporal_process_formdata _ _ _ _ _ _ _ Hc).
  split.
  - by intros x ->.
  - intros e -> He. rewrite He. cbn. reflexivity.
Qed.

End Temporal.

Lemma temporal_fields_parse_the_joined_text_witness :
  Field.process (DateField.DateField "%Y") (Example.scalar "d" VNone [] [])
    (Some {["d" := ["20"; "24"]]}) (VStr "old") [] Example.fresh
  = (Field.State VNone (Some ["20"; "24"]) [] [VStr "Not a valid date value."]
       (VStr "old"),
     Ok tt).
Proof.
  exact (proj2 (temporal_fields_parse_the_joined_text (DateField.DateField "%Y")
           _ _ (Example.scalar "d" VNone [] []) {["d" := ["20"; "24"]]}
           (VStr "old") (VStr "old") "20" ["24"] Example.fresh
           (tc_Date "%Y") eq_refl eq_refl eq_refl)
           (Exn ValueError [VStr "time data does not match format"])
           eq_refl eq_refl).
Defined.
(** ** [FieldList.populate_obj] *)

Lemma populate_entries_scalar (todo : list Field.t) ivalues (h : heap) :
  ∃ h', FieldListObject.populate_entries todo ivalues h
        = (h', Ok (map (λ f, Field.data (Field.st f)) todo))
        ∧ h ⊆ h'.
Proof.
  revert ivalues h. induction todo as [|f todo IH]; intros ivalues h.
  - by exists h.
  - cbn [FieldListObject.populate_entries map].
    unfold bind at 1. unfold get at 1.
    assert (h !! FieldListObject.new_object h = None) as Hl.
    { apply (not_elem_of_dom (D := gset loc)).
      unfold FieldListObject.new_object. apply is_fresh. }
    revert Hl. generalize (FieldListObject.new_object h). intros l Hl.
    set (d := match ivalues with v :: _ => v | [] => VNone end).
    set (h2 := <[l := <["data" := Field.data (Field.st f)]> {["data" := d]}]>
                 (<[l := {["data" := d]}]> h)).
    destruct (IH (tail ivalues) h2) as (h' & Hrest & Hsub).
    exists h'. split.
    + unfold bind at 1. unfold setattr at 1, modify at 1. rewrite Hl.
      cbn [from_option].
      unfold bind at 1. cbn [field_populate_obj field_populating].
      unfold Field.populate_obj, setattr, modify. rewrite lookup_insert_eq.
      cbn [from_option]. rewrite insert_empty. fold h2.
      unfold bind at 1. unfold get at 1.
      unfold bind at 1. unfold lift at 1, getattr. unfold h2 at 1.
      rewrite lookup_insert_eq.
      cbn [mbind option_bind]. rewrite lookup_insert_eq.
      unfold bind. rewrite Hrest. reflexivity.
    + etrans; [|exact Hsub]. unfold h2. rewrite insert_insert_eq.
      by apply insert_subseteq.
Qed.

Lemma iterate_raises v e : iterate v = Raise e → exn_isa e TypeError = true.
Proof. destruct v; cbn; intros ?; by simplify_eq. Qed.

(** X21. A list of scalar fields populates an object with its [data]: for
    a target object that exists, [populate_obj] returns normally and sets
    the attribute to the list of the entries' [data], in order, whatever the
    attribute held before (it replaces the list, it does not update the
    items). The other attributes of the target and the other objects are
    left as they were. *)
Theorem field_list_populates_with_its_data
    (s : FieldList.state Field.t) target attrs name (h : heap) :
  h !! target = Some attrs →
  ∃ h', FieldListObject.populate_obj s (VRef target) name h = (h', Ok tt)
        ∧ h' !! target = Some (<[name := VList (FieldListObject.data s)]> attrs)
        ∧ ∀ l, l ≠ target → is_Some (h !! l) → h' !! l = h !! l.
Proof.
  intros Htarget. unfold FieldListObject.populate_obj.
  unfold bind at 1. unfold get at 1.
  set (ivalues := try_except _ _).
  assert (∃ l, ivalues h = (h, Ok l)) as [l Hl].
  { unfold ivalues, try_except, lift.
    destruct (iterate _) as [l|e] eqn:Hit; [by eexists|]. cbn.
    rewrite (iterate_raises _ _ Hit). cbn. by eexists. }
  unfold bind at 1. rewrite Hl.
  destruct (populate_entries_scalar (FieldList.entries s) l h)
    as (h1 & Hrun & Hsub).
  unfold bind. rewrite Hrun. unfold setattr, modify.
  eexists. split; [reflexivity|].
  rewrite (lookup_weaken _ _ _ _ Htarget Hsub). cbn [from_option].
  split; [by rewrite lookup_insert_eq|].
  intros l' Hne [a Ha]. rewrite lookup_insert_ne by done.
  by rewrite (lookup_weaken _ _ _ _ Ha Hsub).
Qed.

Lemma field_list_populates_with_its_data_witness :
  let s := (FieldList.process (Example.string_list 0 None)
              (Some (Example.submission ["x-0"; "x-1"])) VUnset []
              FieldList.init).1 in
  let h : heap := {[1%positive := {["x" := VList [VStr "old"]; "y" := VInt 1]}]} in
  ∃ h', FieldListObject.populate_obj s (VRef 1%positive) "x" h = (h', Ok tt)
        ∧ h' !! 1%positive
          = Some (<["x" := VList (FieldListObject.data s)]>
                    {["x" := VList [VStr "old"]; "y" := VInt 1]})
        ∧ ∀ l, l ≠ 1%positive → is_Some (h !! l) → h' !! l = h !! l.
Proof.
  intros s h.
  exact (field_list_populates_with_its_data s 1%positive
           {["x" := VList [VStr "old"]; "y" := VInt 1]} "x" h eq_refl).
Defined.
(** ** An entry that cannot be built *)

Section FailedEntry.
Context {F : Type} `{FieldLike F}.
Implicit Types (cf : FieldList.config F) (s : FieldList.state F).

(** X22. An entry that cannot be built still takes its index: when there
    is room and the binding of the new field raises, or its [process]
    does, [_add_entry] raises the same exception and adds no entry, but
    [last_index] has already been set to the index of the entry that
    failed. *)
Theorem add_entry_failure_takes_the_index cf fd d index s e :
  FieldList.max_entries_set cf = false
  ∨ Z.of_nat (length (FieldList.entries s))
    < from_option (λ m, m) 0 (FieldList.max_entries cf) →
  let i := from_option (λ i, i) (FieldList.last_index s + 1) index in
  let bound :=
    FieldList.unbound_field cf
      (FieldList.short_name cf +:+ "-" +:+ pretty i) (FieldList._prefix cf)
      (FieldList.id cf +:+ "-" +:+ pretty i) (FieldList.gettext cf) in
  bound = Raise e
  ∨ (∃ f0, bound = Ok f0 ∧ (field_process fd d f0).2 = Raise e) →
  FieldList._add_entry cf fd d index s
  = (FieldList.set_last_index i s, Raise e).
Proof.
  intros Hroom i bound Hfail. unfold FieldList._add_entry. mrun.
  assert (negb (FieldList.max_entries_set cf)
          || bool_decide (Z.of_nat (length (FieldList.entries s))
                          < from_option (λ m, m) 0 (FieldList.max_entries cf))
          = true) as ->.
  { destruct Hroom as [->|Hlt]; [done|].
    rewrite (bool_decide_eq_true_2 _ Hlt). apply orb_true_r. }
  cbn. assert (match index with
               | Some i0 => i0
               | None => FieldList.last_index s + 1
               end = i) as -> by (by destruct index).
  fold bound. destruct Hfail as [->|(f0 & -> & Hp)]; [done|]. cbn.
  destruct (field_process fd d f0) as [f1 r]. cbn in Hp. by subst r.
Qed.

End FailedEntry.

Lemma add_entry_failure_takes_the_index_witness :
  let failing : filter_fn := λ _, Raise (Exn TypeError [VStr "boom"]) in
  let cf :=
    FieldList.Config "x" "x" "x" EmptyString (VTuple []) [] (λ s, s)
      (Bound.unbound StringField.StringField
         (Bound.Kwargs [] [failing] VNone None false)) 0 None in
  FieldList.append_entry cf (VStr "a") FieldList.init
  = (FieldList.State [] [] 0 VNone, Raise (Exn TypeError [VStr "boom"])).
Proof.
  intros failing cf.
  apply (add_entry_failure_takes_the_index cf None (VStr "a") None
           FieldList.init (Exn TypeError [VStr "boom"])).
  - by left.
  - right. eexists. split; reflexivity.
Defined.

(** ** The text of a string field *)

Section StringText.
Context `{Rendering}.

(** X23. A string field shows its [data], not the raw text: when [str]
    returns a string as it is, a string field without filters that
    processed a submission with a value under its name shows the first raw
    value; and a field whose [data] is [None] shows the empty text, not
    ["None"]. *)
Theorem string_field_shows_its_data cf fd d d' v rest s :
  (∀ t, py_str (VStr t) = Ok t) →
  Field.filters cf = [] →
  resolved (Field.default cf) d = Ok d' →
  let out := Field.process StringField.StringField cf fd d [] s in
  (fd ≫= (.!! Field.name cf) = Some (v :: rest) →
   StringField_value out.1 = Ok v)
  ∧ (fd ≫= (.!! Field.name cf) = None → d' = VNone →
     StringField_value out.1 = Ok EmptyString).
Proof.
  intros Hstr Hf Hd out.
  assert (Field.data out.1
          = match fd ≫= (.!! Field.name cf) with
            | Some (v :: _) => VStr v
            | _ => d'
            end) as Hdata.
  { unfold out. rewrite (process_resolved _ _ _ _ _ _ _ Hd).
    rewrite process_filters_nil by done.
    unfold Field.process_object_data, Field.process_submission. mrun.
    destruct fd as [m|]; cbn; [|done].
    by destruct (m !! Field.name cf) as [[|v' vs]|]. }
  unfold StringField_value. rewrite Hdata. split.
  - intros ->. apply Hstr.
  - by intros -> ->.
Qed.

End StringText.

Lemma string_field_shows_its_data_witness :
  let out := Field.process StringField.StringField
               (Example.scalar "s" VNone [] []) (Some {["s" := ["typed"]]})
               VUnset [] Example.fresh in
  StringField_value out.1 = Ok "typed".
Proof.
  intros out.
  exact (proj1 (string_field_shows_its_data (Example.scalar "s" VNone [] [])
           (Some {["s" := ["typed"]]}) VUnset VNone "typed" [] Example.fresh
           (λ _, eq_refl) eq_refl eq_refl) eq_refl).
Defined.
(** ** Object data under a submission *)

Section Paired.
Context {F : Type} `{FieldLike F}.
Implicit Types (cf : FieldList.config F) (s : FieldList.state F).

Lemma indexed_requests_data (indices : list Z) (items : list value) :
  (indexed_requests indices items).*1
  = take (length indices) items
    ++ replicate (length indices - length items) VUnset.
Proof.
  revert items. induction indices as [|i indices IH]; intros items; [done|].
  cbn [indexed_requests fmap list_fmap fst length]. rewrite IH.
  destruct items as [|v items]; cbn.
  - by rewrite take_nil, Nat.sub_0_r.
  - done.
Qed.

(** X24. With a submission, the entries follow the submitted indices, not
    the object data: when [process] returns, the entry of the k-th selected
    index was built from the k-th item of the object data, or from no data
    when the object data has no such item; the object items beyond the
    selected indices are dropped, and the entries added to reach
    [min_entries] are built from no data. *)
Theorem submitted_entries_take_object_data cf fd d d' items s s' :
  FieldList.formdata_truthy fd = true →
  list_resolved (FieldList.default cf) d = Ok d' →
  iterate d' = Ok items →
  FieldList.process cf fd d [] s = (s', Ok tt) →
  let selected := submitted_indices cf (from_option (λ m, m) ∅ fd) in
  let n := length selected in
  ∃ later : list Z,
    length later = Z.to_nat (FieldList.min_entries cf - Z.of_nat n)
    ∧ Forall2 (λ p f, created cf fd p.1 p.2 f)
        (zip selected (take n items ++ replicate (n - length items) VUnset)
         ++ zip later (replicate (length later) VUnset))
        (FieldList.entries s').
Proof.
  intros Hfd Hres Hit Hp selected n.
  rewrite process_requests, Hres in Hp. cbn zeta in Hp. rewrite Hit in Hp.
  unfold main_requests in Hp. rewrite Hfd in Hp. fold selected in Hp.
  set (s0 := FieldList.set_object_data d' (FieldList.set_entries [] s)) in Hp.
  destruct (run_requests cf fd (indexed_requests selected items) s0)
    as [s1 [[]|e]] eqn:Hmain; [|done].
  pose proof (run_requests_length _ _ _ _ _ Hmain) as Hlen.
  rewrite indexed_requests_length in Hlen. cbn in Hlen. fold n in Hlen.
  rewrite Hlen in Hp. set (k := Z.to_nat _) in Hp.
  apply run_requests_inv in Hmain as (fs1 & Hent1 & Hall1 & _).
  apply run_requests_inv in Hp as (fs2 & Hent2 & Hall2 & _).
  rewrite assigned_indexed, indexed_requests_data in Hall1. fold n in Hall1.
  rewrite assigned_blank in Hall2. unfold blank_requests in Hall2.
  rewrite fmap_replicate in Hall2. cbn [fst] in Hall2. cbn in Hent1.
  exists (seqZ (FieldList.last_index s1 + 1) (Z.of_nat k)).
  rewrite length_seqZ, Nat2Z.id. split; [done|].
  rewrite Hent2, Hent1. by apply Forall2_app.
Qed.

End Paired.

Lemma submitted_entries_take_object_data_witness :
  let cf := Example.string_list 0 None in
  let fd := Some (Example.submission ["x-3"]) in
  let s' := (FieldList.process cf fd (VList [VStr "a"; VStr "b"]) []
               FieldList.init).1 in
  ∃ later : list Z,
    length later = 0%nat
    ∧ Forall2 (λ p f, created cf fd p.1 p.2 f)
        (zip [3] [VStr "a"] ++ zip later (replicate (length later) VUnset))
        (FieldList.entries s').
Proof.
  intros cf fd s'.
  apply (submitted_entries_take_object_data cf fd (VList [VStr "a"; VStr "b"])
           (VList [VStr "a"; VStr "b"]) [VStr "a"; VStr "b"] FieldList.init s').
  - reflexivity.
  - reflexivity.
  - reflexivity.
  - vm_compute. reflexivity.
Defined.
